(** * DS_CogNeuro: the array arithmetic of the EEG / ECoG tutorials

    The notebooks of the course are linear sequences of NumPy, MNE and
    scikit-learn calls on [float64] arrays.  This development embeds the
    cells that compute something (re-referencing, trial averaging, global
    field power, standard error, scaling, regression, correlation) as
    functions on nested lists:

    - a 1-D array is a [list T], a 2-D array a list of rows, a 3-D array a
      list of matrices (NumPy's row-major order);
    - the arithmetic is a parameter ([Scalar]), with two instances: the real
      numbers [R] (exact arithmetic, in which the notebooks' prose reasons)
      and IEEE binary64 ([PrimFloat.float], the arithmetic the cells run on,
      and the one in which the definitions evaluate). *)

From Stdlib Require Import List Arith Lia Bool ZArith.
From Stdlib Require Import Reals Lra Psatz.
From Stdlib Require Import QArith Qround Qreals.
Close Scope Q_scope.
From Stdlib Require PrimFloat FloatOps SpecFloat.
Import PrimFloat.PrimFloatNotations.
From Stdlib Require String.
Import String.StringSyntax.
Delimit Scope string_scope with string.
Import ListNotations.

(** ** Scalars *)

(** The operations the cells apply to array entries.  [f_clip x lo hi] is
    [np.clip], that is [minimum (maximum x lo) hi]. *)
Class Scalar (T : Type) : Type := {
  f_zero : T;
  f_one : T;
  f_add : T -> T -> T;
  f_sub : T -> T -> T;
  f_mul : T -> T -> T;
  f_div : T -> T -> T;
  f_sqrt : T -> T;
  f_of_nat : nat -> T;
  f_clip : T -> T -> T -> T
}.

(** Exact arithmetic. *)
#[export] Instance R_scalar : Scalar R := {
  f_zero := 0%R;
  f_one := 1%R;
  f_add := Rplus;
  f_sub := Rminus;
  f_mul := Rmult;
  f_div := Rdiv;
  f_sqrt := sqrt;
  f_of_nat := INR;
  f_clip := fun x lo hi => Rmin (Rmax x lo) hi
}.

(** IEEE 754 binary64, NumPy's [float64]. *)
Module Binary64.

Fixpoint float_of_nat (n : nat) : PrimFloat.float :=
  match n with
  | O => PrimFloat.zero
  | S k => PrimFloat.add (float_of_nat k) PrimFloat.one
  end.

Definition fmax (x y : PrimFloat.float) : PrimFloat.float :=
  if PrimFloat.ltb x y then y else x.

Definition fmin (x y : PrimFloat.float) : PrimFloat.float :=
  if PrimFloat.ltb y x then y else x.

#[export] Instance float_scalar : Scalar PrimFloat.float := {
  f_zero := PrimFloat.zero;
  f_one := PrimFloat.one;
  f_add := PrimFloat.add;
  f_sub := PrimFloat.sub;
  f_mul := PrimFloat.mul;
  f_div := PrimFloat.div;
  f_sqrt := PrimFloat.sqrt;
  f_of_nat := float_of_nat;
  f_clip := fun x lo hi => fmin (fmax x lo) hi
}.

(** The number a finite [float64] stands for, [(-1)^s * m * 2^e]; NaN and
    the infinities stand for none. *)
Definition float_Q (x : PrimFloat.float) : option Q :=
  match FloatOps.Prim2SF x with
  | SpecFloat.S754_zero _ => Some (inject_Z 0)
  | SpecFloat.S754_finite s m e =>
      let z := if s then Zneg m else Zpos m in
      Some (match e with
            | Z0 => inject_Z z
            | Zpos p => inject_Z (z * Z.pow_pos 2 p)
            | Zneg p => Qmake z (Pos.pow 2 p)
            end)
  | SpecFloat.S754_infinity _ => None
  | SpecFloat.S754_nan => None
  end.

Definition float_R (x : PrimFloat.float) : option R :=
  option_map Q2R (float_Q x).


End Binary64.

(** ** Arrays *)

Fixpoint zip_with {A B C : Type} (f : A -> B -> C) (xs : list A) (ys : list B)
  : list C :=
  match xs, ys with
  | x :: xs', y :: ys' => f x y :: zip_with f xs' ys'
  | _, _ => []
  end.

(** [shape1 m v]: [v.shape == (m,)]; [shape2 n m d]: [d.shape == (n, m)];
    [shape3 k n m e]: [e.shape == (k, n, m)]. *)
Definition shape1 {T : Type} (m : nat) (v : list T) : Prop :=
  length v = m.

Definition shape2 {T : Type} (n m : nat) (d : list (list T)) : Prop :=
  length d = n /\ Forall (shape1 m) d.

Definition shape3 {T : Type} (k n m : nat) (e : list (list (list T))) : Prop :=
  length e = k /\ Forall (shape2 n m) e.

(** What NumPy applies entry by entry, at any number of dimensions:
    [nd_add] is [x + y] on equal shapes, [nd_div x k] is [x / k] for a
    scalar [k], [nd_empty] is the result of summing no array at all, and
    [ravel] is the row-major flattening. *)
Class NDArray (T A : Type) : Type := {
  nd_empty : A;
  nd_add : A -> A -> A;
  nd_div : A -> T -> A;
  ravel : A -> list T
}.

#[export] Instance nd_scalar (T : Type) `{Scalar T} : NDArray T T := {
  nd_empty := f_zero;
  nd_add := f_add;
  nd_div := f_div;
  ravel := fun x => [x]
}.

#[export] Instance nd_list (T A : Type) `{NDArray T A} : NDArray T (list A) := {
  nd_empty := [];
  nd_add := zip_with nd_add;
  nd_div := fun xs k => map (fun x => nd_div x k) xs;
  ravel := flat_map ravel
}.

(** An array that NumPy may have squeezed to zero dimensions. *)
Inductive squeezed (T : Type) : Type :=
| zero_d (x : T)
| two_d (c : list (list T)).

Arguments zero_d {T} x.
Arguments two_d {T} c.

Module Numpy.
Section Generic.

Context {T : Type} `{Scalar T}.

(** [np.add.reduce(xs, axis=0)]: the entries along the first axis are
    accumulated from the first one on.  In exact arithmetic the order is
    immaterial; in binary64 it is NumPy's order along a leading axis and
    for a 1-D array of fewer than 8 entries (longer contiguous runs NumPy
    adds pairwise).  Nested lists do not record the row length of an array
    without rows, whose sum is the empty list here. *)
Definition sum_axis0 {A : Type} `{NDArray T A} (xs : list A) : A :=
  match xs with
  | [] => nd_empty
  | x :: rest => fold_left nd_add rest x
  end.

(** [np.mean(xs, axis=0)], [xs.mean(axis=0)], [np.mean(xs, 0)]. *)
Definition mean_axis0 {A : Type} `{NDArray T A} (xs : list A) : A :=
  nd_div (sum_axis0 xs) (f_of_nat (length xs)).

(** [np.mean(v)] on a 1-D array. *)
Definition mean (v : list T) : T := mean_axis0 v.

(** [x ** 2] on a float array is [np.square]. *)
Definition square (x : T) : T := f_mul x x.

(** [np.var(v)] and [np.std(v)] with the default [ddof=0]: the mean of
    the squared deviations from the mean, and its square root. *)
Definition var (v : list T) : T :=
  mean (map (fun x => square (f_sub x (mean v))) v).

Definition std (v : list T) : T := f_sqrt (var v).

(** [d - v] for [d.shape == (n, m)] and [v.shape == (m,)]: broadcasting
    subtracts [v] from every row. *)
Definition sub_rows (d : list (list T)) (v : list T) : list (list T) :=
  map (fun row => zip_with f_sub row v) d.

(** [d[:, t]]. *)
Definition column (t : nat) (d : list (list T)) : list T :=
  map (fun row => nth t row f_zero) d.

(** [d[c, t]]. *)
Definition entry (d : list (list T)) (c t : nat) : T :=
  nth t (nth c d []) f_zero.

(** [e[:, c, t]] of a 3-D array. *)
Definition across (c t : nat) (e : list (list (list T))) : list T :=
  map (fun ep => entry ep c t) e.

(** [np.dot(u, v)] of two 1-D arrays.  The order in which BLAS adds the
    products is not fixed; here they are added from the first on. *)
Definition dot (u v : list T) : T := sum_axis0 (zip_with f_mul u v).

(** [X -= avg[:, None]] with [avg = average(X, axis=1)]. *)
Definition center (row : list T) : list T :=
  map (fun x => f_sub x (mean row)) row.

(** [np.diag(c)]. *)
Definition diag (c : list (list T)) : list T :=
  map (fun i => entry c i i) (seq 0 (length c)).

(** [c.squeeze()] of a square matrix: only a 1-by-1 matrix loses its
    axes. *)
Definition squeeze (c : list (list T)) : squeezed T :=
  match c with
  | [[x]] => zero_d x
  | _ => two_d c
  end.

(** [np.cov(X)] before the final squeeze, with the defaults [rowvar=True]
    and [ddof=1]: [fact = X.shape[1] - 1], set to [0.0] when it is not
    positive; [c = dot(X, X.T); c *= np.true_divide(1, fact)]. *)
Definition cov_matrix (X : list (list T)) : list (list T) :=
  let Xc := map center X in
  let fact := f_of_nat (length (hd [] X) - 1) in
  map (fun u => map (fun v => f_mul (dot u v) (f_div f_one fact)) Xc) Xc.

Definition cov (X : list (list T)) : squeezed T := squeeze (cov_matrix X).

(** [c /= stddev[:, None]] and [c /= stddev[None, :]]. *)
Definition div_rows (c : list (list T)) (s : list T) : list (list T) :=
  zip_with (fun row si => map (fun x => f_div x si) row) c s.

Definition div_cols (c : list (list T)) (s : list T) : list (list T) :=
  map (fun row => zip_with f_div row s) c.

(** [np.clip(c, -1, 1)]. *)
Definition clip_unit (c : list (list T)) : list (list T) :=
  map (map (fun x => f_clip x (f_sub f_zero f_one) f_one)) c.

(** [stddev = sqrt(diag(c)); c /= stddev[:, None]; c /= stddev[None, :];
    np.clip(c, -1, 1, out=c)] *)
Definition normalise (c : list (list T)) : list (list T) :=
  let stddev := map f_sqrt (diag c) in
  clip_unit (div_cols (div_rows c stddev) stddev).

(** [np.corrcoef(X)]: a scalar covariance is returned as [c / c]. *)
Definition corrcoef (X : list (list T)) : squeezed T :=
  match cov X with
  | zero_d c => zero_d (f_div c c)
  | two_d c => two_d (normalise c)
  end.

(** [r[i, j]]; a zero-dimensional [r] cannot be indexed, and [None]
    stands for the [IndexError]. *)
Definition item (r : squeezed T) (i j : nat) : option T :=
  match r with
  | zero_d _ => None
  | two_d c => Some (entry c i j)
  end.

End Generic.
End Numpy.

(** ** Week 3: referencing and epochs of eyeblinks *)

Module Referencing.
Section Generic.

Context {T : Type} `{Scalar T}.

(** [avg_signal = data.mean(axis=0)] *)
Definition avg_signal (data : list (list T)) : list T :=
  Numpy.mean_axis0 data.

(** [data = data - avg_signal] *)
Definition common_average_reference (data : list (list T))
  : list (list T) :=
  Numpy.sub_rows data (avg_signal data).

(** [data_ref = data - data[ref_chan]] *)
Definition data_ref (ref_chan : nat) (data : list (list T))
  : list (list T) :=
  Numpy.sub_rows data (nth ref_chan data []).

End Generic.
End Referencing.

(** The epochs of the eyeblink notebook.
    [mne.preprocessing.create_eog_epochs(raw, 'EEG 003')] detects the
    blinks and returns [mne.Epochs(raw, events, event_id=998, tmin=-0.5,
    tmax=0.5, baseline=None, preload=True)], with [events] the blinks it
    found: the detection is not modelled, its [events] are an input, and
    the recording has no annotated bad segment.  MNE cuts the window
    [tmin .. tmax] around every event out of every channel, the samples
    closest to both [tmin] and [tmax] included; without a baseline the
    samples are those of the recording. *)
Module Epoching.

Local Open Scope Z_scope.

(** Python's [round]: to the nearest integer, a tie to the even one. *)
Definition py_round (q : Q) : Z :=
  let f := Qfloor q in
  match (q - inject_Z f ?= 1 # 2)%Q with
  | Lt => f
  | Gt => f + 1
  | Eq => if Z.even f then f else f + 1
  end.

(** [int(round(x))] of a [float]; Python raises for NaN and the
    infinities. *)
Definition round_float (x : PrimFloat.float) : option Z :=
  option_map py_round (Binary64.float_Q x).

(** [start_idx = int(round(tmin * sfreq))]: the product is a [float64]
    product, rounded before [round] sees it. *)
Definition start_idx (tmin sfreq : PrimFloat.float) : option Z :=
  round_float (PrimFloat.mul tmin sfreq).

(** [int(round(tmax * sfreq))] *)
Definition stop_idx (tmax sfreq : PrimFloat.float) : option Z :=
  round_float (PrimFloat.mul tmax sfreq).

(** [len(epochs.times)], which is [epochs._data.shape[-1]], where
    [times = np.arange(start_idx, stop_idx + 1) / sfreq]; [None] stands
    for the [ValueError] that MNE raises when [tmin > tmax], and for the
    error of [round]. *)
Definition n_times (tmin tmax sfreq : PrimFloat.float) : option nat :=
  if PrimFloat.ltb tmax tmin then None
  else
    match start_idx tmin sfreq, stop_idx tmax sfreq with
    | Some start, Some stop => Some (Z.to_nat (stop + 1 - start))
    | _, _ => None
    end.


(** Some event sample occurs twice. *)
Fixpoint has_repeat (events : list Z) : bool :=
  match events with
  | [] => false
  | ev :: rest => existsb (Z.eqb ev) rest || has_repeat rest
  end.

Section Generic.

Context {T : Type}.

(** [raw.info['sfreq']], [raw.first_samp] (the index that the events
    array gives to the first sample of the recording) and the samples,
    channel by channel. *)
Record Raw : Type := {
  sfreq : PrimFloat.float;
  first_samp : Z;
  raw_data : list (list T)
}.

(** [raw.n_times]. *)
Definition n_samples (raw : Raw) : nat := length (hd [] (raw_data raw)).

(** The window of one event, [len] samples from the offset [start] on, or
    [None] when the event is dropped because its window leaves the
    recording. *)
Definition get_epoch (raw : Raw) (start : Z) (len : nat) (event_samp : Z)
  : option (list (list T)) :=
  let first := event_samp - first_samp raw + start in
  let stop := first + Z.of_nat len in
  if (first <? 0) || (Z.of_nat (n_samples raw) <? stop) then None
  else Some (map (fun ch => firstn len (skipn (Z.to_nat first) ch))
                 (raw_data raw)).

Fixpoint windows (raw : Raw) (start : Z) (len : nat) (events : list Z)
  : list (list (list T)) :=
  match events with
  | [] => []
  | ev :: rest =>
      match get_epoch raw start len ev with
      | Some ep => ep :: windows raw start len rest
      | None => windows raw start len rest
      end
  end.

(** [Epochs(raw, events, event_id, tmin, tmax, baseline=None,
    preload=True).get_data()], of shape [(n_epochs, n_channels, n_times)];
    [events] holds the sample index of every event that carries
    [event_id] (the first column of MNE's events array).  [None] stands
    for an exception: the [ValueError] of [tmin > tmax], the [ValueError]
    of no event carrying [event_id], the [RuntimeError] of two events at
    one sample. *)
Definition Epochs (raw : Raw) (events : list Z)
           (tmin tmax : PrimFloat.float)
  : option (list (list (list T))) :=
  match n_times tmin tmax (sfreq raw), start_idx tmin (sfreq raw) with
  | Some len, Some start =>
      match events with
      | [] => None
      | _ :: _ =>
          if has_repeat events then None
          else Some (windows raw start len events)
      end
  | _, _ => None
  end.

End Generic.

Arguments Raw T : clear implicits.

Section Averaging.

Context {T : Type} `{Scalar T}.

(** [mean_epoch = epochs._data.mean(axis=0)] *)
Definition mean_epoch (epochs_data : list (list (list T)))
  : list (list T) :=
  Numpy.mean_axis0 epochs_data.

End Averaging.

End Epoching.

(** ** Week 4: event-related potentials, global field power, variability *)

Module ERP.
Section Generic.

Context {T : Type} `{Scalar T}.

(** [data_av = np.mean(data, 0)] *)
Definition data_av (data : list (list (list T))) : list (list T) :=
  Numpy.mean_axis0 data.

(** [data_global = np.mean(data_av ** 2, 0)] *)
Definition data_global (av : list (list T)) : list T :=
  Numpy.mean_axis0 (map (map Numpy.square) av).

(** [squared_ep = epochs._data ** 2] and [gfp_ep = squared_ep.mean(1)] *)
Definition squared_ep (epochs_data : list (list (list T)))
  : list (list (list T)) :=
  map (map (map Numpy.square)) epochs_data.

Definition gfp_ep (epochs_data : list (list (list T))) : list (list T) :=
  map Numpy.mean_axis0 (squared_ep epochs_data).

(** [def standard_error(data): return np.std(data) / np.sqrt(data.shape[0])]
    where [np.std] without an axis works on the flattened array. *)
Definition standard_error {A : Type} `{NDArray T A} (data : list A) : T :=
  f_div (Numpy.std (ravel data)) (f_sqrt (f_of_nat (length data))).

End Generic.
End ERP.

(** ** Correlation and regression *)

Module Modeling.
Section Generic.

Context {T : Type} `{Scalar T}.

(** [a_scaled = (a - np.mean(a)) / np.std(a)], which is what
    [sklearn.preprocessing.scale] computes. *)
Definition scale (a : list T) : list T :=
  map (fun x => f_div (f_sub x (Numpy.mean a)) (Numpy.std a)) a.

(** [corr = np.corrcoef(a, b)]: the two arrays are stacked as rows. *)
Definition corr (a b : list T) : squeezed T := Numpy.corrcoef [a; b].

(** [cc_mat = np.corrcoef(data._data)] *)
Definition cc_mat (data : list (list T)) : squeezed T := Numpy.corrcoef data.

End Generic.

Local Open Scope R_scope.

(** The error that [LinearRegression(fit_intercept=False)] minimises for
    one feature [a] and one target [b]: the sum over the samples of
    [(b_i - w * a_i)^2]. *)
Definition residual_sum_of_squares (a b : list R) (w : R) : R :=
  Numpy.sum_axis0 (zip_with (fun x y => Numpy.square (y - w * x)) a b).

(** [reg.fit(a, b)] leaves in [reg.coef_] a weight of least error. *)
Definition least_squares_coef (a b : list R) (w : R) : Prop :=
  forall w' : R,
    residual_sum_of_squares a b w <= residual_sum_of_squares a b w'.

End Modeling.

(** ** Textbook definitions *)

(** The sum of a 1-D array of reals. *)
Definition sumR (l : list R) : R := fold_right Rplus 0%R l.

(** The population standard deviation: the square root of the mean squared
    deviation from the arithmetic mean. *)
Definition population_std (v : list R) : R :=
  let N := INR (length v) in
  let mu := (sumR v / N)%R in
  sqrt (sumR (map (fun x => ((x - mu) * (x - mu))%R) v) / N).

(** ** Inputs on which the cells are evaluated *)

Module Samples.

Import PrimFloat.
Local Open Scope float_scope.

(** Two channels and one timepoint, holding the [float64] values of the
    Python literals [0.1] and [0.2]. *)
Definition two_channels : list (list float) :=
  [[0x1.999999999999ap-4]; [0x1.999999999999ap-3]].

(** Two channels and five timepoints. *)
Definition small_grid : list (list float) :=
  [[2; -2; 0; 0; 0]; [-4; 2; 2; 0; 0]].

(** One channel. *)
Definition one_channel : list (list float) := [[1; 2; 3]].

(** A recording of one channel: three seconds at 100 Hz. *)
Definition three_seconds : Epoching.Raw float :=
  {| Epoching.sfreq := 100;
     Epoching.first_samp := 0%Z;
     Epoching.raw_data := [repeat 0 300] |}.

End Samples.

(** ** Further cells of the notebooks *)

(** Scalars that can be compared, for [np.abs] and [np.argmin]. *)
Class Ordered (T : Type) : Type := {
  f_abs : T -> T;
  f_ltb : T -> T -> bool
}.

Definition Rltb (x y : R) : bool := if Rlt_dec x y then true else false.

#[export] Instance R_ordered : Ordered R := {
  f_abs := Rabs;
  f_ltb := Rltb
}.

Module Binary64Order.

#[export] Instance float_ordered : Ordered PrimFloat.float := {
  f_abs := PrimFloat.abs;
  f_ltb := PrimFloat.ltb
}.

End Binary64Order.

(** The window of an event fits into the recording: it starts at or after
    the first sample and ends at or before the last. *)
Definition window_fits {T : Type} (raw : Epoching.Raw T) (start : Z)
           (len : nat) (ev : Z) : Prop :=
  (0 <= ev - Epoching.first_samp raw + start /\
   ev - Epoching.first_samp raw + start + Z.of_nat len
   <= Z.of_nat (Epoching.n_samples raw))%Z.

(** Week 3: [mean_epoch = mean_epoch.mean(axis=0)], the average over the
    channels of the average over the epochs; week 4 computes the same as
    [data_global = np.mean(data_av, 0)]. *)
Module Averages.
Section Generic.

Context {T : Type} `{Scalar T}.

Definition mean_over_channels (mean_epoch : list (list T)) : list T :=
  Numpy.mean_axis0 mean_epoch.

(** All the values recorded at timepoint [t], over the epochs and the
    channels. *)
Definition all_at (t : nat) (e : list (list (list T))) : list T :=
  flat_map (Numpy.column t) e.

End Generic.
End Averages.

(** Week 4: re-baselining.  [mne.baseline.rescale(data, times, baseline,
    copy=False)] subtracts, for every channel of every epoch, the mean
    over the baseline window; [imin] and [imax] delimit the samples
    [data[..., imin:imax]] of that window. *)
Module Baseline.
Section Generic.

Context {T : Type} `{Scalar T}.

(** [row[imin:imax]] *)
Definition window (imin imax : nat) (row : list T) : list T :=
  firstn (imax - imin) (skipn imin row).

(** [mean = np.mean(data[..., imin:imax], axis=-1, keepdims=True);
    data -= mean] on one channel of one epoch. *)
Definition rescale_row (imin imax : nat) (row : list T) : list T :=
  let m := Numpy.mean (window imin imax row) in
  map (fun x => f_sub x m) row.

Definition rescale (imin imax : nat) (data : list (list (list T)))
  : list (list (list T)) :=
  map (map (rescale_row imin imax)) data.

(** [for baseline in baselines: rescale(epochs._data, ..., copy=False)]:
    with [copy=False] every pass works on the array the previous pass
    left. *)
Definition rescale_loop (baselines : list (nat * nat))
           (data : list (list (list T))) : list (list (list T)) :=
  fold_left (fun d b => rescale (fst b) (snd b) d) baselines data.

End Generic.
End Baseline.

(** The regression notebook: events from the onsets of the chords. *)
Module Events.

Local Open Scope Z_scope.

(** One entry of [np.round(time['start'] * sfreq).astype(int)]: the
    [float64] product, rounded to the nearest whole number (a tie to the
    even one) and converted to [int64].  The conversion is defined for the
    whole numbers from [-2^63] to [2^63 - 1]; for the others, for NaN and
    for the infinities the cell raises or stores no meaningful index,
    hence [None]. *)
Definition ix_onset (start sfreq : PrimFloat.float) : option Z :=
  match Epoching.round_float (PrimFloat.mul start sfreq) with
  | Some z =>
      if (- 2 ^ 63 <=? z) && (z <? 2 ^ 63) then Some z else None
  | None => None
  end.

(** [ix_onsets = np.round(time['start'] * sfreq).astype(int)] *)
Fixpoint ix_onsets (start : list PrimFloat.float) (sfreq : PrimFloat.float)
  : option (list Z) :=
  match start with
  | [] => Some []
  | s :: rest =>
      match ix_onset s sfreq, ix_onsets rest sfreq with
      | Some o, Some os => Some (o :: os)
      | _, _ => None
      end
  end.

(** [ix_types = np.where(time['type'] == 'consonant', 1, 2)] *)
Definition ix_types (type : list String.string) : list Z :=
  map (fun ty => if String.eqb ty "consonant" then 1 else 2) type.

(** [events = np.vstack([ix_onsets, np.ones_like(ix_onsets), ix_types]).T];
    [np.vstack] raises a [ValueError] when the rows differ in length. *)
Definition events (start : list PrimFloat.float) (type : list String.string)
           (sfreq : PrimFloat.float)
  : option (list (list Z)) :=
  match ix_onsets start sfreq with
  | Some onsets =>
      let types := ix_types type in
      if (length onsets =? length types)%nat
      then Some (zip_with (fun o ty => [o; 1; ty]) onsets types)
      else None
  | None => None
  end.

End Events.

(** The regression notebook: simulated signals and predictions. *)
Module Simulation.
Section Generic.

Context {T : Type} `{Scalar T}.

(** [b = weight * a + noise] *)
Definition mix (weight : T) (a noise : list T) : list T :=
  zip_with f_add (map (f_mul weight) a) noise.

(** [b_preds = reg.coef_[0] * test_vals] *)
Definition b_preds (coef : T) (test_vals : list T) : list T :=
  map (f_mul coef) test_vals.

Context `{Ordered T}.

(** [np.argmin]: the index of the first smallest entry; an empty array
    raises a [ValueError]. *)
Fixpoint argmin_from (best_i : nat) (best : T) (i : nat) (xs : list T)
  : nat :=
  match xs with
  | [] => best_i
  | x :: rest =>
      if f_ltb x best then argmin_from i x (S i) rest
      else argmin_from best_i best (S i) rest
  end.

Definition argmin (xs : list T) : option nat :=
  match xs with
  | [] => None
  | x :: rest => Some (argmin_from 0 x 1 rest)
  end.

(** [ix_a_pred = np.argmin(np.abs(a_actual - test_vals))] *)
Definition ix_a_pred (a_actual : T) (test_vals : list T) : option nat :=
  argmin (map (fun tv => f_abs (f_sub a_actual tv)) test_vals).

(** [closest_predicted_b = b_preds[ix_a_pred]] *)
Definition closest_predicted_b (a_actual : T) (test_vals preds : list T)
  : option T :=
  match ix_a_pred a_actual test_vals with
  | Some ix => nth_error preds ix
  | None => None
  end.

End Generic.
End Simulation.

(** The regression notebook: epochs laid side by side. *)
Module Stacking.
Section Generic.

Context {T : Type} `{Scalar T}.

(** [np.hstack] of a 3-D array: its matrices are concatenated along
    their second axis. *)
Fixpoint hstack (e : list (list (list T))) : list (list T) :=
  match e with
  | [] => []
  | ep :: rest =>
      match rest with
      | [] => ep
      | _ :: _ => zip_with (@app T) ep (hstack rest)
      end
  end.

(** [gfp = np.hstack(gfp_ep)]: 1-D arrays are concatenated end to end. *)
Definition gfp (epochs_data : list (list (list T))) : list T :=
  concat (ERP.gfp_ep epochs_data).

(** [squared_raw = np.hstack(squared_ep)] *)
Definition squared_raw (epochs_data : list (list (list T)))
  : list (list T) :=
  hstack (ERP.squared_ep epochs_data).

End Generic.
End Stacking.

(** Week 4: the dictionary of event ids. *)
Module EventIds.

(** Python's [int] of a number: truncation towards zero. *)
Definition py_int (q : Q) : Z := Z.quot (Qnum q) (Zpos (Qden q)).

(** A [dict] with string keys, in insertion order. *)
Definition dict : Type := list (String.string * Z).

(** [d[k] = v] *)
Fixpoint dict_set (k : String.string) (v : Z) (d : dict) : dict :=
  match d with
  | [] => [(k, v)]
  | (k', v') :: rest =>
      if String.eqb k' k then (k', v) :: rest
      else (k', v') :: dict_set k v rest
  end.

(** [d[k]], with [None] for the [KeyError]. *)
Fixpoint dict_get (k : String.string) (d : dict) : option Z :=
  match d with
  | [] => None
  | (k', v') :: rest => if String.eqb k' k then Some v' else dict_get k rest
  end.

(** [ev_id = dict()]
    [for i_name, i_id, i_desc in ev_info.rows: ev_id[i_name] = int(i_id)] *)
Definition ev_id (rows : list (String.string * Q * String.string)) : dict :=
  fold_left (fun d row => dict_set (fst (fst row)) (py_int (snd (fst row))) d)
            rows [].

(** The id in the last row of the table that bears the name [k]. *)
Definition last_id (k : String.string)
           (rows : list (String.string * Q * String.string)) : option Z :=
  fold_left (fun acc row =>
               if String.eqb (fst (fst row)) k
               then Some (py_int (snd (fst row))) else acc)
            rows None.

End EventIds.

(** * Properties *)

(** ** Lists and shapes *)

Section ListFacts.

Context {A B C : Type}.

Lemma zip_with_length (f : A -> B -> C) (xs : list A) (ys : list B) :
  length (zip_with f xs ys) = Nat.min (length xs) (length ys).
Proof.
  revert ys; induction xs as [|x xs IH]; intros [|y ys]; simpl; auto.
Qed.

Lemma zip_with_nth (f : A -> B -> C) (xs : list A) (ys : list B)
      (i : nat) (da : A) (db : B) (dc : C) :
  i < length xs -> i < length ys ->
  nth i (zip_with f xs ys) dc = f (nth i xs da) (nth i ys db).
Proof.
  revert ys i; induction xs as [|x xs IH]; intros [|y ys] [|i]; simpl;
    intros Hx Hy; try lia; auto.
  apply IH; lia.
Qed.

Lemma map_nth_in (f : A -> B) (l : list A) (i : nat) (da : A) (db : B) :
  i < length l -> nth i (map f l) db = f (nth i l da).
Proof.
  intros Hi. rewrite nth_indep with (d' := f da).
  - apply map_nth.
  - rewrite length_map. exact Hi.
Qed.

End ListFacts.

Section FoldZip.

Context {A : Type} (g : A -> A -> A).

(** Accumulating equally long lists entry by entry keeps the length ... *)
Lemma fold_zip_length (m : nat) (rest : list (list A)) (acc : list A) :
  length acc = m -> Forall (shape1 m) rest ->
  length (fold_left (zip_with g) rest acc) = m.
Proof.
  revert acc; induction rest as [|r rest IH]; simpl; intros acc Hacc Hall.
  - exact Hacc.
  - apply Forall_cons_iff in Hall as [Hr Hrest].
    apply IH; auto.
    rewrite zip_with_length, Hacc, Hr. apply Nat.min_id.
Qed.

(** ... and entry [i] of the result accumulates the entries [i]. *)
Lemma fold_zip_nth (m : nat) (rest : list (list A)) (acc : list A)
      (i : nat) (dflt : A) :
  length acc = m -> Forall (shape1 m) rest -> i < m ->
  nth i (fold_left (zip_with g) rest acc) dflt =
  fold_left g (map (fun r => nth i r dflt) rest) (nth i acc dflt).
Proof.
  revert acc; induction rest as [|r rest IH]; simpl; intros acc Hacc Hall Hi.
  - reflexivity.
  - apply Forall_cons_iff in Hall as [Hr Hrest].
    rewrite IH; auto.
    + f_equal. apply zip_with_nth; unfold shape1 in Hr; lia.
    + rewrite zip_with_length, Hacc, Hr. apply Nat.min_id.
Qed.

End FoldZip.

Lemma shape2_nth {T : Type} (n m : nat) (d : list (list T)) (c : nat) :
  shape2 n m d -> c < n -> length (nth c d []) = m.
Proof.
  intros [Hn Hall] Hc.
  rewrite Forall_forall in Hall.
  apply Hall, nth_In; lia.
Qed.

Lemma shape2_map2 {T U : Type} (f : T -> U) (n m : nat) (d : list (list T)) :
  shape2 n m d -> shape2 n m (map (map f) d).
Proof.
  intros [Hn Hall]. split.
  - rewrite length_map. exact Hn.
  - rewrite Forall_map. eapply Forall_impl; [|exact Hall].
    intros row Hrow. unfold shape1 in *. rewrite length_map. exact Hrow.
Qed.

Lemma shape2_zip2 {T : Type} (g : T -> T -> T) (n m : nat)
      (x y : list (list T)) :
  shape2 n m x -> shape2 n m y -> shape2 n m (zip_with (zip_with g) x y).
Proof.
  intros [Hx Hax] [Hy Hay]. split.
  - rewrite zip_with_length, Hx, Hy. apply Nat.min_id.
  - subst n. revert y Hy Hay.
    induction Hax as [|r x Hr Hax IH]; intros [|s y] Hy Hay; simpl in *;
      try constructor; try discriminate.
    + apply Forall_cons_iff in Hay as [Hs _]. unfold shape1 in *.
      rewrite zip_with_length, Hr, Hs. apply Nat.min_id.
    + apply Forall_cons_iff in Hay as [_ Hay]. apply IH; [lia | exact Hay].
Qed.

Ltac solve_shape :=
  repeat match goal with
         | |- shape3 _ _ _ _ => split; [reflexivity|]
         | |- shape2 _ _ _ => split; [reflexivity|]
         | |- shape1 _ _ => reflexivity
         | |- Forall _ _ => constructor
         end.

(** ** Reductions over the first axis *)

Section AxisFacts.

Context {T : Type} `{Scalar T}.

Lemma column_length (t : nat) (d : list (list T)) :
  length (Numpy.column t d) = length d.
Proof. apply length_map. Qed.

Lemma across_length (c t : nat) (e : list (list (list T))) :
  length (Numpy.across c t e) = length e.
Proof. apply length_map. Qed.

Lemma entry_map2 (f : T -> T) (n m : nat) (d : list (list T)) (c t : nat) :
  shape2 n m d -> c < n -> t < m ->
  Numpy.entry (map (map f) d) c t = f (Numpy.entry d c t).
Proof.
  intros Hd Hc Ht. unfold Numpy.entry.
  rewrite (map_nth_in (map f) d c [] []) by (destruct Hd; lia).
  apply map_nth_in. rewrite (shape2_nth n m d c Hd Hc). exact Ht.
Qed.

Lemma sum_axis0_rows_length (n m : nat) (d : list (list T)) :
  shape2 n m d -> 0 < n -> length (Numpy.sum_axis0 d) = m.
Proof.
  intros [Hn Hall] Hpos. destruct d as [|r rest]; simpl in *; [lia|].
  apply Forall_cons_iff in Hall as [Hr Hrest].
  apply fold_zip_length; auto.
Qed.

Lemma sum_axis0_rows_nth (n m : nat) (d : list (list T)) (t : nat) :
  shape2 n m d -> t < m ->
  nth t (Numpy.sum_axis0 d) f_zero = Numpy.sum_axis0 (Numpy.column t d).
Proof.
  intros [Hn Hall] Ht. destruct d as [|r rest]; simpl.
  - destruct t; reflexivity.
  - apply Forall_cons_iff in Hall as [Hr Hrest].
    apply fold_zip_nth with (m := m); auto.
Qed.

Lemma mean_axis0_rows_length (n m : nat) (d : list (list T)) :
  shape2 n m d -> 0 < n -> length (Numpy.mean_axis0 d) = m.
Proof.
  intros Hd Hpos. unfold Numpy.mean_axis0. simpl.
  rewrite length_map. eapply sum_axis0_rows_length; eauto.
Qed.

(** Entry [t] of the mean over the first axis is the mean of column [t]. *)
Lemma mean_axis0_rows_nth (n m : nat) (d : list (list T)) (t : nat) :
  shape2 n m d -> 0 < n -> t < m ->
  nth t (Numpy.mean_axis0 d) f_zero = Numpy.mean (Numpy.column t d).
Proof.
  intros Hd Hpos Ht. unfold Numpy.mean, Numpy.mean_axis0. simpl.
  rewrite (map_nth_in _ _ t f_zero f_zero)
    by (rewrite (sum_axis0_rows_length n m d Hd Hpos); exact Ht).
  rewrite (sum_axis0_rows_nth n m d t Hd Ht), column_length.
  reflexivity.
Qed.

Lemma fold_matrices_shape (n m : nat) (rest : list (list (list T)))
      (acc : list (list T)) :
  shape2 n m acc -> Forall (shape2 n m) rest ->
  shape2 n m (fold_left (zip_with (zip_with f_add)) rest acc).
Proof.
  revert acc; induction rest as [|r rest IH]; simpl; intros acc Hacc Hall.
  - exact Hacc.
  - apply Forall_cons_iff in Hall as [Hr Hrest].
    apply IH; [apply shape2_zip2; assumption | exact Hrest].
Qed.

Lemma sum_axis0_matrices_shape (k n m : nat) (e : list (list (list T))) :
  shape3 k n m e -> 0 < k -> shape2 n m (Numpy.sum_axis0 e).
Proof.
  intros [Hk Hall] Hpos. destruct e as [|e0 rest]; simpl in *; [lia|].
  apply Forall_cons_iff in Hall as [He0 Hrest].
  apply fold_matrices_shape; assumption.
Qed.

Lemma sum_axis0_matrices_entry (k n m : nat) (e : list (list (list T)))
      (c t : nat) :
  shape3 k n m e -> 0 < k -> c < n -> t < m ->
  Numpy.entry (Numpy.sum_axis0 e) c t = Numpy.sum_axis0 (Numpy.across c t e).
Proof.
  intros [Hk Hall] Hpos Hc Ht. destruct e as [|e0 rest]; simpl in *; [lia|].
  apply Forall_cons_iff in Hall as [He0 Hrest].
  unfold Numpy.entry.
  rewrite (fold_zip_nth (zip_with f_add) n rest e0 c []); try assumption.
  - rewrite (fold_zip_nth f_add m _ _ t f_zero); try assumption.
    + rewrite map_map. reflexivity.
    + apply (shape2_nth n m e0 c He0 Hc).
    + rewrite Forall_map. eapply Forall_impl; [|exact Hrest].
      intros ep Hep. apply (shape2_nth n m ep c Hep Hc).
  - destruct He0 as [Hlen _]. exact Hlen.
  - eapply Forall_impl; [|exact Hrest]. intros ep [Hlen _]. exact Hlen.
Qed.

Lemma mean_axis0_matrices_shape (k n m : nat) (e : list (list (list T))) :
  shape3 k n m e -> 0 < k -> shape2 n m (Numpy.mean_axis0 e).
Proof.
  intros He Hpos. unfold Numpy.mean_axis0. simpl.
  apply (shape2_map2 (fun x => f_div x (f_of_nat (length e)))).
  apply (sum_axis0_matrices_shape k n m e He Hpos).
Qed.

(** Entry [(c, t)] of the mean over the first axis of a 3-D array is the
    mean of the entries [(c, t)] of its matrices. *)
Lemma mean_axis0_matrices_entry (k n m : nat) (e : list (list (list T)))
      (c t : nat) :
  shape3 k n m e -> 0 < k -> c < n -> t < m ->
  Numpy.entry (Numpy.mean_axis0 e) c t = Numpy.mean (Numpy.across c t e).
Proof.
  intros He Hpos Hc Ht. unfold Numpy.mean, Numpy.mean_axis0. simpl.
  rewrite (entry_map2 (fun x => f_div x (f_of_nat (length e))) n m _ c t
             (sum_axis0_matrices_shape k n m e He Hpos) Hc Ht).
  rewrite (sum_axis0_matrices_entry k n m e c t He Hpos Hc Ht).
  rewrite across_length. reflexivity.
Qed.

End AxisFacts.

(** ** Common average reference *)

Section CarGeneric.

Context {T : Type} `{Scalar T}.

Lemma sub_rows_shape (n m : nat) (d : list (list T)) (v : list T) :
  shape2 n m d -> length v = m -> shape2 n m (Numpy.sub_rows d v).
Proof.
  intros [Hn Hall] Hv. split.
  - unfold Numpy.sub_rows. rewrite length_map. exact Hn.
  - unfold Numpy.sub_rows. rewrite Forall_map.
    eapply Forall_impl; [|exact Hall]. intros row Hrow.
    unfold shape1 in *. rewrite zip_with_length, Hrow, Hv.
    apply Nat.min_id.
Qed.

Lemma sub_rows_entry (n m : nat) (d : list (list T)) (v : list T)
      (c t : nat) :
  shape2 n m d -> length v = m -> c < n -> t < m ->
  Numpy.entry (Numpy.sub_rows d v) c t =
  f_sub (Numpy.entry d c t) (nth t v f_zero).
Proof.
  intros Hd Hv Hc Ht. unfold Numpy.entry, Numpy.sub_rows.
  rewrite (map_nth_in _ d c [] []) by (destruct Hd; lia).
  apply zip_with_nth; [rewrite (shape2_nth n m d c Hd Hc)|]; lia.
Qed.

(** X1. Referencing to one channel subtracts that channel's value at the
    same timepoint, in any arithmetic. *)
Lemma data_ref_entry (n m : nat) (d : list (list T)) (ref_chan c t : nat) :
  shape2 n m d -> ref_chan < n -> c < n -> t < m ->
  Numpy.entry (Referencing.data_ref ref_chan d) c t =
  f_sub (Numpy.entry d c t) (Numpy.entry d ref_chan t).
Proof.
  intros Hd Hr Hc Ht. unfold Referencing.data_ref.
  apply (sub_rows_entry n m d _ c t Hd (shape2_nth n m d ref_chan Hd Hr)
           Hc Ht).
Qed.

End CarGeneric.

(** ** Event-related potentials *)

Section ErpBinary64.

Import PrimFloat Binary64.
Local Open Scope float_scope.

Example erp_of_three_epochs :
  ERP.data_av [[[1; 2]]; [[3; 6]]; [[8; 1]]] = [[4; 3]].
Proof. vm_compute. reflexivity. Qed.

End ErpBinary64.

(** ** Sums of reals *)

Section SumsR.

Local Open Scope R_scope.

Lemma fold_left_Rplus (l : list R) (a : R) :
  fold_left Rplus l a = a + sumR l.
Proof.
  revert a; induction l as [|x l IH]; simpl; intros a.
  - lra.
  - rewrite IH. lra.
Qed.

Lemma sum_axis0_R (l : list R) : Numpy.sum_axis0 l = sumR l.
Proof.
  destruct l as [|x l]; simpl; [reflexivity|].
  apply fold_left_Rplus.
Qed.

Lemma mean_R (l : list R) : Numpy.mean l = sumR l / INR (length l).
Proof.
  unfold Numpy.mean, Numpy.mean_axis0. simpl. rewrite sum_axis0_R.
  reflexivity.
Qed.

Lemma sumR_map_minus (l : list R) (k : R) :
  sumR (map (fun x => x - k) l) = sumR l - INR (length l) * k.
Proof.
  induction l as [|x l IH].
  - simpl. lra.
  - change (sumR (map (fun x => x - k) (x :: l)))
      with ((x - k) + sumR (map (fun x => x - k) l)).
    rewrite IH. change (length (x :: l)) with (S (length l)).
    rewrite S_INR. simpl. lra.
Qed.

Lemma sumR_nonneg (l : list R) : Forall (fun x => 0 <= x) l -> 0 <= sumR l.
Proof. induction 1 as [|x l Hx Hl IH]; simpl; lra. Qed.

Lemma sumR_squares_nonneg (l : list R) : 0 <= sumR (map Numpy.square l).
Proof.
  apply sumR_nonneg. rewrite Forall_map. apply Forall_forall.
  intros x _. unfold Numpy.square. simpl. nra.
Qed.

Lemma INR_length_pos {A : Type} (l : list A) :
  (0 < length l)%nat -> 0 < INR (length l).
Proof. intros Hl. apply lt_0_INR. exact Hl. Qed.

(** Deviations from the mean sum to zero. *)
Lemma sumR_centered (l : list R) :
  sumR (map (fun x => x - Numpy.mean l) l) = 0.
Proof.
  rewrite sumR_map_minus, mean_R.
  destruct l as [|x l]; [simpl; lra|].
  assert (0 < INR (length (x :: l))) by (apply INR_length_pos; simpl; lia).
  field. lra.
Qed.

Lemma mean_centered (l : list R) :
  Numpy.mean (map (fun x => x - Numpy.mean l) l) = 0.
Proof.
  rewrite mean_R, sumR_centered. unfold Rdiv. apply Rmult_0_l.
Qed.

Lemma mean_axis0_rows_nth_R (n m : nat) (d : list (list R)) (t : nat) :
  shape2 n m d -> (0 < n)%nat -> (t < m)%nat ->
  nth t (Numpy.mean_axis0 d) 0 = Numpy.mean (Numpy.column t d).
Proof. exact (mean_axis0_rows_nth n m d t). Qed.

End SumsR.

(** ** Common average reference, in exact arithmetic *)

Section CarExact.

Local Open Scope R_scope.

Lemma column_sub_rows (n m : nat) (d : list (list R)) (v : list R)
      (t : nat) :
  shape2 n m d -> length v = m -> (t < m)%nat ->
  Numpy.column t (Numpy.sub_rows d v) =
  map (fun x => x - nth t v 0) (Numpy.column t d).
Proof.
  intros [Hn Hall] Hv Ht. unfold Numpy.column, Numpy.sub_rows.
  rewrite !map_map. apply map_ext_in. intros row Hrow.
  rewrite Forall_forall in Hall. specialize (Hall row Hrow).
  unfold shape1 in Hall.
  apply (zip_with_nth Rminus row v t 0 0 0); lia.
Qed.

Lemma zip_with_minus_zeros (row v : list R) :
  length v = length row ->
  (forall t, (t < length row)%nat -> nth t v 0 = 0) ->
  zip_with Rminus row v = row.
Proof.
  revert v; induction row as [|x row IH]; intros [|y v]; simpl;
    intros Hlen Hz; try reflexivity; try discriminate.
  f_equal.
  - specialize (Hz 0%nat). simpl in Hz. rewrite Hz by lia. lra.
  - apply IH; [lia|]. intros t Ht. apply (Hz (S t)). lia.
Qed.

Lemma car_entry_R (n m : nat) (d : list (list R)) (c t : nat) :
  shape2 n m d -> (c < n)%nat -> (t < m)%nat ->
  Numpy.entry (Referencing.common_average_reference d) c t =
  Numpy.entry d c t - Numpy.mean (Numpy.column t d).
Proof.
  intros Hd Hc Ht.
  assert (Hpos : (0 < n)%nat) by lia.
  assert (Hlen : length (Referencing.avg_signal d) = m)
    by (apply mean_axis0_rows_length with (n := n); assumption).
  unfold Referencing.common_average_reference.
  rewrite (sub_rows_entry n m d _ c t Hd Hlen Hc Ht).
  change (@f_sub R R_scalar) with Rminus. f_equal.
  apply (mean_axis0_rows_nth_R n m d t Hd Hpos Ht).
Qed.

(** C2. Common average referencing keeps the shape of the channels-by-time
    matrix, and its output at channel [c] and time [t] is [d[c][t]] minus
    the mean over all channels of [d[.][t]]: the sum of the values that
    the [n] channels have at time [t], divided by [n]. *)
Theorem car_subtracts_channel_mean (n m : nat) (d : list (list R))
        (c t : nat) :
  shape2 n m d -> (c < n)%nat -> (t < m)%nat ->
  shape2 n m (Referencing.common_average_reference d) /\
  Numpy.entry (Referencing.common_average_reference d) c t =
  Numpy.entry d c t - sumR (Numpy.column t d) / INR n.
Proof.
  intros Hd Hc Ht.
  assert (Hpos : (0 < n)%nat) by lia.
  assert (Hlen : length (Referencing.avg_signal d) = m)
    by (apply mean_axis0_rows_length with (n := n); assumption).
  split.
  - unfold Referencing.common_average_reference.
    apply sub_rows_shape; assumption.
  - rewrite (car_entry_R n m d c t Hd Hc Ht), mean_R, column_length.
    destruct Hd as [Hn _]. rewrite Hn. reflexivity.
Qed.

Lemma car_subtracts_channel_mean_witness :
  let d := [[1; 2]; [3; 6]] in
  (shape2 2 2 d /\ (0 < 2)%nat /\ (1 < 2)%nat) /\
  shape2 2 2 (Referencing.common_average_reference d) /\
  Numpy.entry (Referencing.common_average_reference d) 0 1 =
  Numpy.entry d 0 1 - sumR (Numpy.column 1 d) / INR 2.
Proof.
  intros d.
  assert (Hd : shape2 2 2 d) by (subst d; solve_shape).
  split; [split; [exact Hd | lia] |].
  apply (car_subtracts_channel_mean 2 2 d 0 1); [exact Hd | lia | lia].
Defined.

(** After re-referencing, the mean over channels vanishes at every
    timepoint. *)
Lemma car_avg_signal_zero (n m : nat) (d : list (list R)) (t : nat) :
  shape2 n m d -> (t < m)%nat ->
  nth t (Referencing.avg_signal (Referencing.common_average_reference d)) 0
  = 0.
Proof.
  intros Hd Ht. destruct (Nat.eq_dec n 0) as [Hn0|Hn0].
  - destruct Hd as [Hn _]. destruct d; [|simpl in Hn; lia].
    simpl. destruct t; reflexivity.
  - assert (Hpos : (0 < n)%nat) by lia.
    assert (Hlen : length (Referencing.avg_signal d) = m)
      by (apply mean_axis0_rows_length with (n := n); assumption).
    assert (Hd' : shape2 n m (Referencing.common_average_reference d))
      by (apply sub_rows_shape; assumption).
    unfold Referencing.avg_signal at 1.
    rewrite (mean_axis0_rows_nth_R n m _ t Hd' Hpos Ht).
    unfold Referencing.common_average_reference.
    rewrite (column_sub_rows n m d _ t Hd Hlen Ht).
    unfold Referencing.avg_signal.
    rewrite (mean_axis0_rows_nth_R n m d t Hd Hpos Ht).
    apply mean_centered.
Qed.

(** C8, in exact arithmetic.  The output of channel-mean subtraction has
    cross-channel mean zero at every timepoint, and re-referencing it
    again returns it unchanged. *)
Theorem car_idempotent_exact (n m : nat) (d : list (list R)) :
  shape2 n m d ->
  (forall t, (t < m)%nat ->
     nth t (Referencing.avg_signal
              (Referencing.common_average_reference d)) 0 = 0) /\
  Referencing.common_average_reference
    (Referencing.common_average_reference d) =
  Referencing.common_average_reference d.
Proof.
  intros Hd.
  assert (Hzero : forall t, (t < m)%nat ->
     nth t (Referencing.avg_signal
              (Referencing.common_average_reference d)) 0 = 0)
    by (intros t Ht; apply car_avg_signal_zero with (n := n) (m := m);
        assumption).
  split; [exact Hzero|].
  destruct (Nat.eq_dec n 0) as [Hn0|Hn0].
  - destruct Hd as [Hn _]. destruct d; [reflexivity | simpl in Hn; lia].
  - assert (Hpos : (0 < n)%nat) by lia.
    assert (Hlen : length (Referencing.avg_signal d) = m)
      by (apply mean_axis0_rows_length with (n := n); assumption).
    assert (Hd' : shape2 n m (Referencing.common_average_reference d))
      by (apply sub_rows_shape; assumption).
    assert (Hlen' : length (Referencing.avg_signal
                      (Referencing.common_average_reference d)) = m)
      by (apply mean_axis0_rows_length with (n := n); assumption).
    set (d' := Referencing.common_average_reference d) in *.
    unfold Referencing.common_average_reference at 1.
    unfold Numpy.sub_rows.
    rewrite <- (map_id d') at 2.
    apply map_ext_in. intros row Hrow.
    destruct Hd' as [_ Hall]. rewrite Forall_forall in Hall.
    specialize (Hall row Hrow). unfold shape1 in Hall.
    apply zip_with_minus_zeros; [lia|].
    intros t Ht. apply Hzero. lia.
Qed.

Lemma car_idempotent_exact_witness :
  let d := [[1; 5]; [3; 9]] in
  shape2 2 2 d /\
  Referencing.common_average_reference
    (Referencing.common_average_reference d) =
  Referencing.common_average_reference d.
Proof.
  intros d.
  assert (Hd : shape2 2 2 d) by (subst d; solve_shape).
  split; [exact Hd|].
  apply (car_idempotent_exact 2 2 d Hd).
Defined.

End CarExact.

(** ** Common average reference, in binary64 *)

Section CarBinary64.

Import PrimFloat Binary64.
Local Open Scope float_scope.

Example two_channels_avg_signal :
  Referencing.avg_signal Samples.two_channels = [0x1.3333333333334p-3].
Proof. vm_compute. reflexivity. Qed.

(** C8 as stated fails on [float64] data: after re-referencing the two
    channels [0.1] and [0.2], their mean is [-2^-56], not zero, and a
    second re-referencing changes both channels. *)
Lemma car_binary64_not_idempotent :
  shape2 2 1 Samples.two_channels /\
  Referencing.avg_signal
    (Referencing.common_average_reference Samples.two_channels)
  = [(-0x1p-56)] /\
  Referencing.avg_signal
    (Referencing.common_average_reference Samples.two_channels)
  <> [0] /\
  Referencing.common_average_reference
    (Referencing.common_average_reference Samples.two_channels) <>
  Referencing.common_average_reference Samples.two_channels.
Proof.
  split; [unfold Samples.two_channels; solve_shape|].
  split; [vm_compute; reflexivity|].
  split.
  - intros Heq.
    apply (f_equal (fun l => PrimFloat.eqb (nth 0 l 1) 0)) in Heq.
    vm_compute in Heq. discriminate Heq.
  - intros Heq.
    apply (f_equal (fun l => PrimFloat.eqb (Numpy.entry l 0 0)
             (Numpy.entry (Referencing.common_average_reference
                             Samples.two_channels) 0 0))) in Heq.
    vm_compute in Heq. discriminate Heq.
Qed.

End CarBinary64.

(** ** Event-related potentials, in exact arithmetic *)

Section ErpExact.

Local Open Scope R_scope.

Lemma mean_axis0_matrices_entry_R (k n m : nat) (e : list (list (list R)))
      (c t : nat) :
  shape3 k n m e -> (0 < k)%nat -> (c < n)%nat -> (t < m)%nat ->
  Numpy.entry (Numpy.mean_axis0 e) c t = sumR (Numpy.across c t e) / INR k.
Proof.
  intros He Hpos Hc Ht.
  rewrite (mean_axis0_matrices_entry k n m e c t He Hpos Hc Ht).
  rewrite mean_R, across_length. destruct He as [Hk _]. rewrite Hk.
  reflexivity.
Qed.

(** C4. For a non-empty epochs array of shape [(k, n, m)] the trial
    average has shape [(n, m)], and its entry at [(c, t)] is the arithmetic
    mean over the epochs of their entries at [(c, t)]: their sum divided
    by [k].  This holds for [mean_epoch] of the eyeblink notebook and for
    [data_av] of the ERP notebook. *)
Theorem erp_is_trial_average (k n m : nat) (e : list (list (list R)))
        (c t : nat) :
  shape3 k n m e -> (0 < k)%nat -> (c < n)%nat -> (t < m)%nat ->
  (shape2 n m (Epoching.mean_epoch e) /\
   Numpy.entry (Epoching.mean_epoch e) c t =
   sumR (Numpy.across c t e) / INR k) /\
  (shape2 n m (ERP.data_av e) /\
   Numpy.entry (ERP.data_av e) c t = sumR (Numpy.across c t e) / INR k).
Proof.
  intros He Hpos Hc Ht. split; split.
  - apply (mean_axis0_matrices_shape k n m e He Hpos).
  - apply (mean_axis0_matrices_entry_R k n m e c t He Hpos Hc Ht).
  - apply (mean_axis0_matrices_shape k n m e He Hpos).
  - apply (mean_axis0_matrices_entry_R k n m e c t He Hpos Hc Ht).
Qed.

Lemma erp_is_trial_average_witness :
  let e := [[[1; 2]]; [[3; 6]]; [[8; 1]]] in
  (shape3 3 1 2 e /\ (0 < 3)%nat /\ (0 < 1)%nat /\ (1 < 2)%nat) /\
  (shape2 1 2 (Epoching.mean_epoch e) /\
   Numpy.entry (Epoching.mean_epoch e) 0 1 =
   sumR (Numpy.across 0 1 e) / INR 3) /\
  (shape2 1 2 (ERP.data_av e) /\
   Numpy.entry (ERP.data_av e) 0 1 = sumR (Numpy.across 0 1 e) / INR 3).
Proof.
  intros e.
  assert (He : shape3 3 1 2 e) by (subst e; solve_shape).
  split; [split; [exact He | lia] |].
  apply (erp_is_trial_average 3 1 2 e 0 1); [exact He | lia | lia | lia].
Defined.

End ErpExact.

(** ** Global field power *)

Section GfpGeneric.

Context {T : Type} `{Scalar T}.

Lemma column_map2 (f : T -> T) (n m : nat) (d : list (list T)) (t : nat) :
  shape2 n m d -> t < m ->
  Numpy.column t (map (map f) d) = map f (Numpy.column t d).
Proof.
  intros [Hn Hall] Ht. unfold Numpy.column. rewrite !map_map.
  apply map_ext_in. intros row Hrow.
  rewrite Forall_forall in Hall. specialize (Hall row Hrow).
  apply map_nth_in. unfold shape1 in Hall. lia.
Qed.

(** The global field power has one entry per timepoint, [Numpy.mean] of
    the squared values that the channels have at that timepoint. *)
Lemma data_global_length (n m : nat) (d : list (list T)) :
  shape2 n m d -> 0 < n -> length (ERP.data_global d) = m.
Proof.
  intros Hd Hpos. unfold ERP.data_global.
  apply (mean_axis0_rows_length n m); [|exact Hpos].
  apply shape2_map2. exact Hd.
Qed.

Lemma data_global_entry (n m : nat) (d : list (list T)) (t : nat) :
  shape2 n m d -> 0 < n -> t < m ->
  nth t (ERP.data_global d) f_zero =
    Numpy.mean (map Numpy.square (Numpy.column t d)).
Proof.
  intros Hd Hpos Ht.
  assert (Hsq : shape2 n m (map (map Numpy.square) d))
    by (apply shape2_map2; exact Hd).
  unfold ERP.data_global.
  rewrite (mean_axis0_rows_nth n m _ t Hsq Hpos Ht).
  rewrite (column_map2 Numpy.square n m d t Hd Ht). reflexivity.
Qed.

(** The per-epoch global field power of the regression notebook is
    [data_global] applied to every epoch. *)
Lemma gfp_ep_data_global (e : list (list (list T))) :
  ERP.gfp_ep e = map ERP.data_global e.
Proof.
  unfold ERP.gfp_ep, ERP.squared_ep, ERP.data_global. apply map_map.
Qed.

End GfpGeneric.

Section GfpExact.

Local Open Scope R_scope.

Lemma sumR_products_nonneg (l : list R) :
  0 <= sumR (map (fun x => x * x) l).
Proof.
  apply sumR_nonneg. rewrite Forall_map. apply Forall_forall.
  intros x _. apply Rle_0_sqr.
Qed.

(** C3, for real-valued signals.  The global field power of a
    channels-by-time matrix of real numbers with at least one channel is
    one timeseries of length [n_times]; at every timepoint it is the mean
    across channels of the squared signal (the sum of the [x * x] over the
    channels, divided by their number), hence not negative. *)
Theorem gfp_is_mean_square (n m : nat) (d : list (list R)) :
  shape2 n m d -> (0 < n)%nat ->
  length (ERP.data_global d) = m /\
  forall t, (t < m)%nat ->
    nth t (ERP.data_global d) 0 =
      sumR (map (fun x => x * x) (Numpy.column t d)) / INR n /\
    0 <= nth t (ERP.data_global d) 0.
Proof.
  intros Hd Hpos. split.
  - apply (data_global_length n m d Hd Hpos).
  - intros t Ht.
    assert (Hnth : nth t (ERP.data_global d) 0 =
                   sumR (map (fun x => x * x) (Numpy.column t d)) / INR n).
    { pose proof (data_global_entry n m d t Hd Hpos Ht) as Hent.
      change (@f_zero R R_scalar) with 0 in Hent.
      change (@Numpy.square R R_scalar) with (fun x : R => x * x) in Hent.
      rewrite Hent, mean_R, length_map, column_length.
      destruct Hd as [Hn _]. rewrite Hn. reflexivity. }
    split; [exact Hnth|].
    rewrite Hnth. apply Rmult_le_pos.
    + apply sumR_products_nonneg.
    + apply Rlt_le, Rinv_0_lt_compat, lt_0_INR. exact Hpos.
Qed.

Lemma gfp_is_mean_square_witness :
  let d := [[1; -2]; [3; 4]] in
  (shape2 2 2 d /\ (0 < 2)%nat) /\
  length (ERP.data_global d) = 2%nat /\
  forall t, (t < 2)%nat ->
    nth t (ERP.data_global d) 0 =
      sumR (map (fun x => x * x) (Numpy.column t d)) / INR 2 /\
    0 <= nth t (ERP.data_global d) 0.
Proof.
  intros d.
  assert (Hd : shape2 2 2 d) by (subst d; solve_shape).
  split; [split; [exact Hd | lia] |].
  apply (gfp_is_mean_square 2 2 d); [exact Hd | lia].
Defined.

End GfpExact.

Section GfpBinary64.

Import PrimFloat Binary64.
Local Open Scope float_scope.

Example gfp_of_two_channels :
  ERP.data_global [[1; -2]; [3; 4]] = [5; 10].
Proof. vm_compute. reflexivity. Qed.

(** C3 as stated ("for every input") fails on [float64] data: one channel
    whose only sample is NaN has the global field power NaN, which is not
    greater than or equal to zero. *)
Lemma gfp_binary64_nan_not_nonnegative :
  shape2 1 1 [[nan]] /\
  ERP.data_global [[nan]] = [nan] /\
  (0 <=? nth 0 (ERP.data_global [[nan]]) 0) = false.
Proof.
  split; [solve_shape|]. split; vm_compute; reflexivity.
Qed.

End GfpBinary64.

(** ** Standard error *)

Section Ravel.

Context {T : Type} `{Scalar T}.

Lemma ravel_1d (v : list T) : ravel v = v.
Proof. induction v as [|x v IH]; simpl in *; [|rewrite IH]; reflexivity. Qed.

Lemma ravel_2d (d : list (list T)) : ravel d = concat d.
Proof.
  induction d as [|row d IH]; [reflexivity|].
  change (ravel (row :: d)) with (ravel row ++ ravel d).
  rewrite IH, ravel_1d. reflexivity.
Qed.

End Ravel.

Section StandardErrorExact.

Local Open Scope R_scope.

Lemma std_R (v : list R) : Numpy.std v = population_std v.
Proof.
  unfold Numpy.std, Numpy.var, population_std. simpl.
  rewrite mean_R, length_map. f_equal. f_equal. f_equal.
  apply map_ext. intros x. rewrite mean_R. reflexivity.
Qed.

(** C5. [standard_error] is sigma over the square root of N: on a
    non-empty 1-D array the population standard deviation of the samples
    divided by the square root of their number, and on a 2-D array the
    standard deviation of all the entries divided by the square root of
    the length of the first axis. *)
Theorem standard_error_is_sigma_over_sqrt_n
        (v : list R) (d : list (list R)) :
  v <> [] -> d <> [] ->
  ERP.standard_error v = population_std v / sqrt (INR (length v)) /\
  ERP.standard_error d = population_std (concat d) / sqrt (INR (length d)).
Proof.
  intros _ _. unfold ERP.standard_error. split.
  - rewrite ravel_1d, std_R. reflexivity.
  - rewrite ravel_2d, std_R. reflexivity.
Qed.

Lemma standard_error_is_sigma_over_sqrt_n_witness :
  let v := [2; 4; 4; 4; 5; 5; 7; 9] in
  let d := [[1; 2]; [3; 4]] in
  (v <> [] /\ d <> []) /\
  ERP.standard_error v = population_std v / sqrt (INR (length v)) /\
  ERP.standard_error d = population_std (concat d) / sqrt (INR (length d)).
Proof.
  intros v d.
  assert (Hv : v <> []) by (subst v; discriminate).
  assert (Hd : d <> []) by (subst d; discriminate).
  split; [split; assumption|].
  apply (standard_error_is_sigma_over_sqrt_n v d Hv Hd).
Defined.

End StandardErrorExact.

Section StandardErrorBinary64.

Import PrimFloat Binary64.
Local Open Scope float_scope.

(** Eight samples with mean 5 and standard deviation 2. *)
Example standard_error_of_eight_samples :
  ERP.standard_error [2; 4; 4; 4; 5; 5; 7; 9] = 2 / sqrt 8.
Proof. vm_compute. reflexivity. Qed.

End StandardErrorBinary64.

(** ** Least squares with one feature and no intercept *)

Section LeastSquares.

Local Open Scope R_scope.

(** The sum of the products of two 1-D arrays. *)
Lemma dot_R (u v : list R) : Numpy.dot u v = sumR (zip_with Rmult u v).
Proof. unfold Numpy.dot. simpl. apply sum_axis0_R. Qed.

Lemma zip_with_same (u : list R) :
  zip_with Rmult u u = map Numpy.square u.
Proof. induction u as [|x u IH]; simpl; [|rewrite IH]; reflexivity. Qed.

Lemma dot_R_same (u : list R) : Numpy.dot u u = sumR (map Numpy.square u).
Proof. rewrite dot_R, zip_with_same. reflexivity. Qed.

Lemma dot_R_comm (u v : list R) : Numpy.dot u v = Numpy.dot v u.
Proof.
  rewrite !dot_R. revert v; induction u as [|x u IH]; intros [|y v]; simpl;
    try reflexivity.
  rewrite IH. lra.
Qed.

Lemma dot_R_same_nonneg (u : list R) : 0 <= Numpy.dot u u.
Proof. rewrite dot_R_same. apply sumR_squares_nonneg. Qed.

(** The squared length of [x * u - y * v], expanded. *)
Lemma quadratic_expand (x y : R) (u v : list R) :
  length u = length v ->
  sumR (zip_with (fun p q => Numpy.square (x * p - y * q)) u v) =
  x * x * Numpy.dot u u - 2 * x * y * Numpy.dot u v
  + y * y * Numpy.dot v v.
Proof.
  rewrite !dot_R.
  revert v; induction u as [|p u IH]; intros [|q v] Hlen; simpl in *;
    try discriminate.
  - lra.
  - rewrite IH by lia. unfold Numpy.square. simpl. lra.
Qed.

Lemma quadratic_nonneg (x y : R) (u v : list R) :
  length u = length v ->
  0 <= x * x * Numpy.dot u u - 2 * x * y * Numpy.dot u v
       + y * y * Numpy.dot v v.
Proof.
  intros Hlen. rewrite <- (quadratic_expand x y u v Hlen).
  apply sumR_nonneg. clear Hlen.
  revert v; induction u as [|p u IH]; intros [|q v]; simpl; constructor.
  - apply (Rle_0_sqr (x * p - y * q)).
  - apply IH.
Qed.

(** Cauchy-Schwarz. *)
Lemma dot_R_cauchy_schwarz (u v : list R) :
  length u = length v ->
  Numpy.dot u v * Numpy.dot u v <= Numpy.dot u u * Numpy.dot v v.
Proof.
  intros Hlen.
  pose proof (dot_R_same_nonneg u) as HA.
  pose proof (dot_R_same_nonneg v) as HB.
  set (A := Numpy.dot u u) in *. set (B := Numpy.dot v v) in *.
  set (C := Numpy.dot u v) in *.
  destruct (Rle_lt_or_eq_dec 0 B HB) as [Bpos|Bzero].
  - pose proof (quadratic_nonneg B C u v Hlen) as Hq.
    fold A B C in Hq.
    assert (Hf : 0 <= B * (A * B - C * C)) by nra.
    assert (0 <= A * B - C * C); [|lra].
    destruct (Rle_or_lt 0 (A * B - C * C)) as [Hle|Hlt]; [exact Hle|].
    exfalso. assert (B * (A * B - C * C) < 0) by nra. lra.
  - rewrite <- Bzero.
    assert (HC : C = 0).
    { destruct (Req_dec C 0) as [HC|HC]; [exact HC|exfalso].
      pose proof (quadratic_nonneg 1 ((A + 1) / (2 * C)) u v Hlen) as Hq.
      fold A B C in Hq. rewrite <- Bzero in Hq.
      replace (1 * 1 * A - 2 * 1 * ((A + 1) / (2 * C)) * C
               + (A + 1) / (2 * C) * ((A + 1) / (2 * C)) * 0)
        with (-1) in Hq by (field; exact HC).
      lra. }
    rewrite HC. lra.
Qed.

Lemma rss_expand (a b : list R) (w : R) :
  length a = length b ->
  Modeling.residual_sum_of_squares a b w =
  Numpy.dot b b - 2 * w * Numpy.dot a b + w * w * Numpy.dot a a.
Proof.
  intros Hlen. unfold Modeling.residual_sum_of_squares.
  rewrite sum_axis0_R.
  replace (zip_with (fun x y => Numpy.square (y - w * x)) a b)
    with (zip_with (fun p q => Numpy.square (w * p - 1 * q)) a b).
  - rewrite (quadratic_expand w 1 a b Hlen). lra.
  - clear Hlen. revert b; induction a as [|x a IH]; intros [|y b]; simpl;
      try reflexivity.
    rewrite IH. f_equal. unfold Numpy.square. simpl. lra.
Qed.

(** The error as a parabola in [w] with vertex [w0], when
    [dot a b = dot a a * w0]. *)
Lemma rss_vertex (a b : list R) (w w0 : R) :
  length a = length b ->
  Numpy.dot a b = Numpy.dot a a * w0 ->
  Modeling.residual_sum_of_squares a b w =
  Modeling.residual_sum_of_squares a b w0
  + Numpy.dot a a * ((w - w0) * (w - w0)).
Proof.
  intros Hlen Hw0. rewrite !rss_expand by exact Hlen. rewrite Hw0. ring.
Qed.

Lemma least_squares_iff (a b : list R) (w w0 : R) :
  length a = length b ->
  0 < Numpy.dot a a ->
  Numpy.dot a b = Numpy.dot a a * w0 ->
  Modeling.least_squares_coef a b w <-> w = w0.
Proof.
  intros Hlen Hpos Hw0. split.
  - intros Hmin. specialize (Hmin w0).
    rewrite (rss_vertex a b w w0 Hlen Hw0) in Hmin.
    pose proof (Rle_0_sqr (w - w0)) as Hsq. unfold Rsqr in Hsq.
    destruct (Rle_lt_or_eq_dec _ _ Hsq) as [Hlt|Heq].
    + pose proof (Rmult_lt_0_compat _ _ Hpos Hlt). lra.
    + symmetry in Heq. apply Rmult_integral in Heq. lra.
  - intros -> w'. rewrite (rss_vertex a b w' w0 Hlen Hw0).
    pose proof (Rle_0_sqr (w' - w0)) as Hsq. unfold Rsqr in Hsq.
    pose proof (Rmult_le_pos _ _ (Rlt_le _ _ Hpos) Hsq). lra.
Qed.

(** C6, in exact arithmetic, the fit specified as a weight of least
    squared error.  With one feature, no intercept and a feature vector
    that is not all zero, that weight exists, is unique, and is the sum of
    the [a_i * b_i] divided by the sum of the [a_i^2]. *)
Theorem least_squares_closed_form (a b : list R) (w : R) :
  length a = length b ->
  sumR (map (fun x => x * x) a) <> 0 ->
  Modeling.least_squares_coef a b w <->
  w = sumR (zip_with Rmult a b) / sumR (map (fun x => x * x) a).
Proof.
  intros Hlen Hnz.
  change (fun x : R => x * x) with (@Numpy.square R R_scalar) in *.
  rewrite <- dot_R, <- dot_R_same in *.
  pose proof (dot_R_same_nonneg a) as Hge.
  apply least_squares_iff; [exact Hlen | lra |].
  field. exact Hnz.
Qed.

Lemma least_squares_closed_form_witness :
  let a := [1; 2; 3] in
  let b := [2; 4; 7] in
  (length a = length b /\ sumR (map (fun x => x * x) a) <> 0) /\
  (Modeling.least_squares_coef a b (31 / 14) <->
   31 / 14 = sumR (zip_with Rmult a b) / sumR (map (fun x => x * x) a)).
Proof.
  intros a b.
  assert (Hlen : length a = length b) by reflexivity.
  assert (Hnz : sumR (map (fun x => x * x) a) <> 0)
    by (subst a; simpl; lra).
  split; [split; assumption|].
  apply (least_squares_closed_form a b (31 / 14) Hlen Hnz).
Defined.

(** On the sample above the fitted weight is 31/14. *)
Example least_squares_of_three_samples :
  Modeling.least_squares_coef [1; 2; 3] [2; 4; 7] (31 / 14).
Proof.
  apply (least_squares_iff [1; 2; 3] [2; 4; 7] (31 / 14) (31 / 14)).
  - reflexivity.
  - rewrite dot_R. simpl. lra.
  - rewrite !dot_R. simpl. lra.
  - reflexivity.
Qed.

End LeastSquares.

(** ** The numbers that binary64 holds *)

Section Binary64Values.

Local Open Scope Z_scope.

Lemma pow2_mod7 (n : nat) :
  exists q r : Z, 2 ^ Z.of_nat n = 7 * q + r /\ (r = 1 \/ r = 2 \/ r = 4).
Proof.
  induction n as [|n [q [r [Hq Hr]]]].
  - exists 0, 1. split; [reflexivity | auto].
  - rewrite Nat2Z.inj_succ, Z.pow_succ_r by lia. rewrite Hq.
    destruct Hr as [-> | [-> | ->]].
    + exists (2 * q), 2. split; [lia | auto].
    + exists (2 * q), 4. split; [lia | auto].
    + exists (2 * q + 1), 1. split; [lia | auto].
Qed.

Lemma pow2_mod3 (n : nat) :
  exists q r : Z, 2 ^ Z.of_nat n = 3 * q + r /\ (r = 1 \/ r = 2).
Proof.
  induction n as [|n [q [r [Hq Hr]]]].
  - exists 0, 1. split; [reflexivity | auto].
  - rewrite Nat2Z.inj_succ, Z.pow_succ_r by lia. rewrite Hq.
    destruct Hr as [-> | ->].
    + exists (2 * q), 2. split; [lia | auto].
    + exists (2 * q + 1), 1. split; [lia | auto].
Qed.

Lemma Zpos_pow2 (p : positive) :
  Zpos (Pos.pow 2 p) = 2 ^ Z.of_nat (Pos.to_nat p).
Proof. rewrite positive_nat_Z, Pos2Z.inj_pow. reflexivity. Qed.

(** A binary64 number is a whole number of halves of halves ...: it is
    neither 31/14 nor 5/3. *)
Lemma float_Q_not_31_14 (x : PrimFloat.float) (q : Q) :
  Binary64.float_Q x = Some q -> ~ (q == 31 # 14)%Q.
Proof.
  unfold Binary64.float_Q.
  destruct (FloatOps.Prim2SF x) as [s | s | | s m e]; try discriminate.
  - intros [= <-]. discriminate.
  - intros [= <-]. unfold Qeq.
    set (z := if s then Z.neg m else Z.pos m).
    destruct e as [|p|p]; unfold inject_Z; cbn [Qnum Qden].
    + lia.
    + generalize (z * Z.pow_pos 2 p). intros w. lia.
    + rewrite Zpos_pow2.
      destruct (pow2_mod7 (Pos.to_nat p)) as [k [r [-> Hr]]]. lia.
Qed.

Lemma float_Q_not_5_3 (x : PrimFloat.float) (q : Q) :
  Binary64.float_Q x = Some q -> ~ (q == 5 # 3)%Q.
Proof.
  unfold Binary64.float_Q.
  destruct (FloatOps.Prim2SF x) as [s | s | | s m e]; try discriminate.
  - intros [= <-]. discriminate.
  - intros [= <-]. unfold Qeq.
    set (z := if s then Z.neg m else Z.pos m).
    destruct e as [|p|p]; unfold inject_Z; cbn [Qnum Qden].
    + lia.
    + generalize (z * Z.pow_pos 2 p). intros w. lia.
    + rewrite Zpos_pow2.
      destruct (pow2_mod3 (Pos.to_nat p)) as [k [r [-> Hr]]]. lia.
Qed.

Lemma float_R_neq (x : PrimFloat.float) (q : Q) (r : R) :
  Q2R q = r ->
  (forall q0, Binary64.float_Q x = Some q0 -> ~ (q0 == q)%Q) ->
  Binary64.float_R x <> Some r.
Proof.
  intros <- Hne. unfold Binary64.float_R.
  destruct (Binary64.float_Q x) as [q0|] eqn:Hq; simpl; [|discriminate].
  intros [= Heq]. apply (Hne q0 eq_refl). apply eqR_Qeq. exact Heq.
Qed.

End Binary64Values.

Section LeastSquaresBinary64.

Local Open Scope R_scope.

(** C6 as stated fails on [float64] data, whatever the solver does:
    [reg.coef_] holds a binary64 number, and for [a = [1, 2, 3]],
    [b = [2, 4, 7]] the closed form is 31/14, for [a = [3]], [b = [5]] it
    is 5/3; no binary64 number has either value, so the fitted coefficient
    is a rounded neighbour of the closed form, not the closed form. *)
Lemma fit_binary64_not_closed_form :
  (length [1; 2; 3] = length [2; 4; 7] /\
   sumR (map (fun x => x * x) [1; 2; 3]) <> 0 /\
   forall coef : PrimFloat.float,
     Binary64.float_R coef <>
     Some (sumR (zip_with Rmult [1; 2; 3] [2; 4; 7]) /
           sumR (map (fun x => x * x) [1; 2; 3]))) /\
  (length [3] = length [5] /\
   sumR (map (fun x => x * x) [3]) <> 0 /\
   forall coef : PrimFloat.float,
     Binary64.float_R coef <>
     Some (sumR (zip_with Rmult [3] [5]) / sumR (map (fun x => x * x) [3]))).
Proof.
  split; (split; [reflexivity|]); (split; [simpl; lra|]); intros coef.
  - apply (float_R_neq coef (31 # 14)).
    + unfold Q2R. simpl. field.
    + apply float_Q_not_31_14.
  - apply (float_R_neq coef (5 # 3)).
    + unfold Q2R. simpl. field.
    + apply float_Q_not_5_3.
Qed.

End LeastSquaresBinary64.

(** ** The correlation matrix: shape and entries *)

Section CorrcoefGeneric.

Context {T : Type} `{Scalar T}.

Lemma cov_matrix_shape (n : nat) (X : list (list T)) :
  length X = n -> shape2 n n (Numpy.cov_matrix X).
Proof.
  intros Hn. unfold Numpy.cov_matrix. split.
  - rewrite !length_map. exact Hn.
  - rewrite Forall_map. apply Forall_forall. intros u _.
    unfold shape1. rewrite !length_map. exact Hn.
Qed.

Lemma cov_matrix_entry (X : list (list T)) (i j : nat) :
  i < length X -> j < length X ->
  Numpy.entry (Numpy.cov_matrix X) i j =
  f_mul (Numpy.dot (Numpy.center (nth i X [])) (Numpy.center (nth j X [])))
        (f_div f_one (f_of_nat (length (hd [] X) - 1))).
Proof.
  intros Hi Hj. unfold Numpy.entry, Numpy.cov_matrix.
  rewrite (map_nth_in _ (map Numpy.center X) i [] [])
    by (rewrite length_map; exact Hi).
  rewrite (map_nth_in _ (map Numpy.center X) j [] f_zero)
    by (rewrite length_map; exact Hj).
  rewrite (map_nth_in Numpy.center X i [] []) by exact Hi.
  rewrite (map_nth_in Numpy.center X j [] []) by exact Hj.
  reflexivity.
Qed.

Lemma diag_length (c : list (list T)) : length (Numpy.diag c) = length c.
Proof. unfold Numpy.diag. rewrite length_map. apply length_seq. Qed.

Lemma diag_nth (c : list (list T)) (i : nat) :
  i < length c -> nth i (Numpy.diag c) f_zero = Numpy.entry c i i.
Proof.
  intros Hi. unfold Numpy.diag.
  rewrite (map_nth_in _ (seq 0 (length c)) i 0 f_zero)
    by (rewrite length_seq; exact Hi).
  rewrite seq_nth by exact Hi. reflexivity.
Qed.

Lemma squeeze_two_rows (c : list (list T)) :
  2 <= length c -> Numpy.squeeze c = two_d c.
Proof.
  destruct c as [|r0 [|r1 c]]; simpl; try lia.
  intros _. destruct r0 as [|x [|y r0]]; reflexivity.
Qed.

Lemma div_rows_shape (n m : nat) (c : list (list T)) (s : list T) :
  shape2 n m c -> length s = n -> shape2 n m (Numpy.div_rows c s).
Proof.
  intros [Hn Hall] Hs. unfold Numpy.div_rows. split.
  - rewrite zip_with_length, Hn, Hs. apply Nat.min_id.
  - clear Hn Hs. revert s. induction Hall as [|row c Hrow Hall IH];
      intros [|si s]; simpl; constructor.
    + unfold shape1 in *. rewrite length_map. exact Hrow.
    + apply IH.
Qed.

Lemma div_rows_entry (n m : nat) (c : list (list T)) (s : list T)
      (i j : nat) :
  shape2 n m c -> length s = n -> i < n -> j < m ->
  Numpy.entry (Numpy.div_rows c s) i j =
  f_div (Numpy.entry c i j) (nth i s f_zero).
Proof.
  intros Hc Hs Hi Hj. unfold Numpy.entry, Numpy.div_rows.
  rewrite (zip_with_nth _ c s i [] f_zero []) by (destruct Hc; lia).
  cbv beta.
  apply (map_nth_in (fun x => f_div x (nth i s f_zero)) (nth i c []) j
           f_zero f_zero).
  rewrite (shape2_nth n m c i Hc Hi). exact Hj.
Qed.

Lemma div_cols_shape (n m : nat) (c : list (list T)) (s : list T) :
  shape2 n m c -> length s = m -> shape2 n m (Numpy.div_cols c s).
Proof.
  intros [Hn Hall] Hs. unfold Numpy.div_cols. split.
  - rewrite length_map. exact Hn.
  - rewrite Forall_map. eapply Forall_impl; [|exact Hall].
    intros row Hrow. unfold shape1 in *.
    rewrite zip_with_length, Hrow, Hs. apply Nat.min_id.
Qed.

Lemma div_cols_entry (n m : nat) (c : list (list T)) (s : list T)
      (i j : nat) :
  shape2 n m c -> length s = m -> i < n -> j < m ->
  Numpy.entry (Numpy.div_cols c s) i j =
  f_div (Numpy.entry c i j) (nth j s f_zero).
Proof.
  intros Hc Hs Hi Hj. unfold Numpy.entry, Numpy.div_cols.
  rewrite (map_nth_in _ c i [] []) by (destruct Hc; lia).
  apply zip_with_nth; [rewrite (shape2_nth n m c i Hc Hi)|]; lia.
Qed.

(** What [np.corrcoef] returns for at least two rows. *)
Lemma corrcoef_two_rows (X : list (list T)) :
  2 <= length X ->
  Numpy.corrcoef X = two_d (Numpy.normalise (Numpy.cov_matrix X)).
Proof.
  intros Hn. unfold Numpy.corrcoef, Numpy.cov.
  rewrite squeeze_two_rows; [reflexivity|].
  destruct (cov_matrix_shape (length X) X eq_refl) as [Hlen _]. lia.
Qed.

Lemma normalised_shape (n : nat) (X : list (list T)) :
  length X = n -> shape2 n n (Numpy.normalise (Numpy.cov_matrix X)).
Proof.
  intros Hn. unfold Numpy.normalise, Numpy.clip_unit.
  pose proof (cov_matrix_shape n X Hn) as Hc.
  assert (Hs : length (map f_sqrt (Numpy.diag (Numpy.cov_matrix X))) = n)
    by (rewrite length_map, diag_length; destruct Hc; assumption).
  apply shape2_map2, div_cols_shape; [apply div_rows_shape|]; assumption.
Qed.

Lemma normalised_entry (n : nat) (X : list (list T)) (i j : nat) :
  length X = n -> i < n -> j < n ->
  Numpy.entry (Numpy.normalise (Numpy.cov_matrix X)) i j =
  f_clip
    (f_div
       (f_div (Numpy.entry (Numpy.cov_matrix X) i j)
              (f_sqrt (Numpy.entry (Numpy.cov_matrix X) i i)))
       (f_sqrt (Numpy.entry (Numpy.cov_matrix X) j j)))
    (f_sub f_zero f_one) f_one.
Proof.
  intros Hn Hi Hj. unfold Numpy.normalise, Numpy.clip_unit.
  pose proof (cov_matrix_shape n X Hn) as Hc.
  set (c := Numpy.cov_matrix X) in *.
  assert (Hlen : length c = n) by (destruct Hc; assumption).
  assert (Hs : length (map f_sqrt (Numpy.diag c)) = n)
    by (rewrite length_map, diag_length; exact Hlen).
  assert (Hnth : forall k, k < n ->
            nth k (map f_sqrt (Numpy.diag c)) f_zero =
            f_sqrt (Numpy.entry c k k)).
  { intros k Hk.
    rewrite (map_nth_in f_sqrt (Numpy.diag c) k f_zero f_zero)
      by (rewrite diag_length; lia).
    rewrite diag_nth by lia. reflexivity. }
  rewrite (entry_map2 _ n n _ i j); try assumption.
  - rewrite (div_cols_entry n n _ _ i j); try assumption.
    + rewrite (div_rows_entry n n c _ i j); try assumption.
      rewrite !Hnth by assumption. reflexivity.
    + apply div_rows_shape; assumption.
  - apply div_cols_shape; [apply div_rows_shape|]; assumption.
Qed.

End CorrcoefGeneric.

(** ** The correlation matrix, in exact arithmetic *)

Section CorrcoefExact.

Local Open Scope R_scope.

Lemma center_length (row : list R) :
  length (Numpy.center row) = length row.
Proof. apply length_map. Qed.

Lemma var_R (row : list R) :
  Numpy.var row =
  Numpy.dot (Numpy.center row) (Numpy.center row) / INR (length row).
Proof.
  unfold Numpy.var. rewrite mean_R, length_map, dot_R_same.
  unfold Numpy.center. rewrite map_map. reflexivity.
Qed.

(** A row of nonzero variance has at least two samples, and its
    deviations from the mean are not all zero. *)
Lemma var_nonzero (row : list R) :
  Numpy.var row <> 0 ->
  0 < Numpy.dot (Numpy.center row) (Numpy.center row) /\
  (2 <= length row)%nat.
Proof.
  rewrite var_R. intros Hv. split.
  - pose proof (dot_R_same_nonneg (Numpy.center row)) as Hge.
    destruct (Req_dec (Numpy.dot (Numpy.center row) (Numpy.center row)) 0)
      as [Hz|Hnz]; [|lra].
    exfalso. apply Hv. rewrite Hz. unfold Rdiv. apply Rmult_0_l.
  - destruct row as [|x [|y r]]; simpl length; try lia; exfalso; apply Hv.
    + rewrite dot_R. simpl. unfold Rdiv. apply Rmult_0_l.
    + rewrite dot_R. unfold Numpy.center. rewrite mean_R. simpl. field.
Qed.

Lemma normalise_R (Dij Dii Djj k : R) :
  0 < Dii -> 0 < Djj -> 0 < k ->
  Dij * k / sqrt (Dii * k) / sqrt (Djj * k) =
  Dij / (sqrt Dii * sqrt Djj).
Proof.
  intros Hi Hj Hk. rewrite !sqrt_mult by lra.
  pose proof (sqrt_lt_R0 Dii Hi). pose proof (sqrt_lt_R0 Djj Hj).
  pose proof (sqrt_lt_R0 k Hk).
  replace (Dij * k) with (Dij * (sqrt k * sqrt k))
    by (rewrite sqrt_sqrt; lra).
  field. repeat split; lra.
Qed.

Lemma unit_interval (Dij Dii Djj : R) :
  0 < Dii -> 0 < Djj -> Dij * Dij <= Dii * Djj ->
  -1 <= Dij / (sqrt Dii * sqrt Djj) <= 1.
Proof.
  intros Hi Hj Hcs.
  pose proof (sqrt_lt_R0 Dii Hi) as Hsi.
  pose proof (sqrt_lt_R0 Djj Hj) as Hsj.
  set (s := sqrt Dii * sqrt Djj).
  assert (Hs : 0 < s) by (apply Rmult_lt_0_compat; assumption).
  assert (Hss : s * s = Dii * Djj).
  { unfold s.
    replace (sqrt Dii * sqrt Djj * (sqrt Dii * sqrt Djj))
      with ((sqrt Dii * sqrt Dii) * (sqrt Djj * sqrt Djj)) by ring.
    rewrite !sqrt_sqrt by lra. reflexivity. }
  rewrite <- Hss in Hcs.
  assert (Hup : Dij <= s).
  { destruct (Rle_or_lt Dij s) as [Hle|Hlt]; [exact Hle|exfalso].
    assert (s * s < Dij * Dij)
      by (apply Rmult_le_0_lt_compat; lra).
    lra. }
  assert (Hlo : - s <= Dij).
  { destruct (Rle_or_lt (- s) Dij) as [Hle|Hlt]; [exact Hle|exfalso].
    assert (s * s < (- Dij) * (- Dij))
      by (apply Rmult_le_0_lt_compat; lra).
    lra. }
  split.
  - apply Rmult_le_reg_r with (r := s); [exact Hs|].
    unfold Rdiv. rewrite Rmult_assoc, Rinv_l by lra. lra.
  - apply Rmult_le_reg_r with (r := s); [exact Hs|].
    unfold Rdiv. rewrite Rmult_assoc, Rinv_l by lra. lra.
Qed.

Lemma clip_id (x : R) : -1 <= x <= 1 -> Rmin (Rmax x (0 - 1)) 1 = x.
Proof.
  intros [Hlo Hhi]. rewrite Rmax_left by lra. apply Rmin_left. exact Hhi.
Qed.

Lemma clip_bounds (x : R) : -1 <= Rmin (Rmax x (0 - 1)) 1 <= 1.
Proof.
  split.
  - apply Rmin_glb; [|lra]. pose proof (Rmax_r x (0 - 1)). lra.
  - apply Rmin_r.
Qed.

(** In exact arithmetic the clipping changes nothing, and the entry
    [(i, j)] is the textbook correlation coefficient of rows [i] and
    [j]. *)
Lemma normalised_entry_R (n m : nat) (X : list (list R)) (i j : nat) :
  shape2 n m X -> Forall (fun row => Numpy.var row <> 0) X ->
  (i < n)%nat -> (j < n)%nat ->
  Numpy.entry (Numpy.normalise (Numpy.cov_matrix X)) i j =
  Numpy.dot (Numpy.center (nth i X [])) (Numpy.center (nth j X []))
  / (sqrt (Numpy.dot (Numpy.center (nth i X [])) (Numpy.center (nth i X [])))
     * sqrt (Numpy.dot (Numpy.center (nth j X []))
                       (Numpy.center (nth j X [])))).
Proof.
  intros HX Hvar Hi Hj. destruct HX as [Hn Hall].
  rewrite Forall_forall in Hvar, Hall.
  assert (Hrow : forall r, (r < n)%nat ->
            0 < Numpy.dot (Numpy.center (nth r X []))
                          (Numpy.center (nth r X [])) /\
            (2 <= m)%nat /\ length (nth r X []) = m).
  { intros r Hr.
    assert (Hin : In (nth r X []) X) by (apply nth_In; lia).
    destruct (var_nonzero _ (Hvar _ Hin)) as [Hpos Hlen].
    specialize (Hall _ Hin). unfold shape1 in Hall.
    repeat split; [exact Hpos | lia | exact Hall]. }
  destruct (Hrow i Hi) as [Hpi [Hm Hli]].
  destruct (Hrow j Hj) as [Hpj [_ Hlj]].
  assert (Hhd : length (hd [] X) = m).
  { destruct X as [|r0 X]; [simpl in Hn; lia|].
    apply Hall. left. reflexivity. }
  assert (Hk : 0 < 1 / INR (m - 1)).
  { apply Rdiv_lt_0_compat; [lra|]. apply lt_0_INR. lia. }
  rewrite (normalised_entry n X i j Hn Hi Hj).
  rewrite !cov_matrix_entry by lia.
  rewrite Hhd.
  change (Rmin (Rmax
    (Numpy.dot (Numpy.center (nth i X [])) (Numpy.center (nth j X []))
       * (1 / INR (m - 1))
     / sqrt (Numpy.dot (Numpy.center (nth i X [])) (Numpy.center (nth i X []))
             * (1 / INR (m - 1)))
     / sqrt (Numpy.dot (Numpy.center (nth j X [])) (Numpy.center (nth j X []))
             * (1 / INR (m - 1))))
    (0 - 1)) 1 = Numpy.dot (Numpy.center (nth i X []))
                   (Numpy.center (nth j X []))
  / (sqrt (Numpy.dot (Numpy.center (nth i X [])) (Numpy.center (nth i X [])))
     * sqrt (Numpy.dot (Numpy.center (nth j X []))
                       (Numpy.center (nth j X []))))).
  rewrite (normalise_R _ _ _ _ Hpi Hpj Hk).
  apply clip_id, unit_interval; try assumption.
  apply dot_R_cauchy_schwarz. rewrite !center_length. lia.
Qed.

(** C9, in exact arithmetic and for at least two channels.  The
    correlation matrix of a data matrix whose rows have nonzero variance is
    square, symmetric, has ones on its diagonal, and all its entries lie
    between -1 and 1. *)
Theorem corrcoef_matrix_exact (n m : nat) (X : list (list R)) :
  shape2 n m X -> (2 <= n)%nat ->
  Forall (fun row => Numpy.var row <> 0) X ->
  exists c : list (list R),
    Modeling.cc_mat X = two_d c /\
    shape2 n n c /\
    forall i j, (i < n)%nat -> (j < n)%nat ->
      Numpy.entry c i j = Numpy.entry c j i /\
      Numpy.entry c i i = 1 /\
      -1 <= Numpy.entry c i j <= 1.
Proof.
  intros HX Hn2 Hvar.
  exists (Numpy.normalise (Numpy.cov_matrix X)).
  assert (Hn : length X = n) by (destruct HX; assumption).
  split; [|split].
  - unfold Modeling.cc_mat. apply corrcoef_two_rows. lia.
  - apply normalised_shape. exact Hn.
  - intros i j Hi Hj. split; [|split].
    + rewrite (normalised_entry_R n m X i j HX Hvar Hi Hj).
      rewrite (normalised_entry_R n m X j i HX Hvar Hj Hi).
      rewrite (dot_R_comm (Numpy.center (nth i X []))).
      f_equal. apply Rmult_comm.
    + rewrite (normalised_entry_R n m X i i HX Hvar Hi Hi).
      rewrite Forall_forall in Hvar.
      assert (Hin : In (nth i X []) X) by (apply nth_In; lia).
      destruct (var_nonzero _ (Hvar _ Hin)) as [Hpos _].
      rewrite sqrt_sqrt by lra. field. lra.
    + rewrite (normalised_entry n X i j Hn Hi Hj). apply clip_bounds.
Qed.

Lemma corrcoef_matrix_exact_witness :
  let X := [[0; 2]; [3; 1]] in
  (shape2 2 2 X /\ (2 <= 2)%nat /\
   Forall (fun row => Numpy.var row <> 0) X) /\
  exists c : list (list R),
    Modeling.cc_mat X = two_d c /\
    shape2 2 2 c /\
    forall i j, (i < 2)%nat -> (j < 2)%nat ->
      Numpy.entry c i j = Numpy.entry c j i /\
      Numpy.entry c i i = 1 /\
      -1 <= Numpy.entry c i j <= 1.
Proof.
  intros X.
  assert (HX : shape2 2 2 X) by (subst X; solve_shape).
  assert (Hvar : Forall (fun row => Numpy.var row <> 0) X).
  { subst X. repeat constructor; rewrite var_R, dot_R;
      unfold Numpy.center; rewrite mean_R; simpl;
      match goal with |- ?e <> 0 => replace e with 1 by field end; lra. }
  split; [split; [exact HX | split; [lia | exact Hvar]] |].
  apply (corrcoef_matrix_exact 2 2 X HX); [lia | exact Hvar].
Defined.

End CorrcoefExact.

(** ** The correlation matrix, in binary64 *)

Ltac float_neq :=
  let Heq := fresh "Heq" in
  intro Heq;
  match type of Heq with
  | ?a = ?b => apply (f_equal (fun x => PrimFloat.eqb x b)) in Heq
  end;
  vm_compute in Heq; discriminate Heq.

Section CorrcoefBinary64.

Import PrimFloat Binary64.
Local Open Scope float_scope.

Example small_grid_cov :
  Numpy.cov Samples.small_grid = two_d [[2; -3]; [-3; 6]].
Proof. vm_compute. reflexivity. Qed.

(** C9 as stated fails on [float64] data.  For the two channels of
    [small_grid] every sum and product is exact, and the covariance matrix
    is [[2, -3], [-3, 6]]; the square roots and the two divisions round:
    the first diagonal entry is [1 - 2^-53], and the entries [(0, 1)] and
    [(1, 0)] differ.  And for one channel [np.corrcoef] returns a
    zero-dimensional [1.0], not a matrix of shape [(1, 1)]. *)
Lemma corrcoef_binary64_not_exact :
  (shape2 2 5 Samples.small_grid /\
   Forall (fun row => Numpy.var row <> 0) Samples.small_grid /\
   exists c,
     Modeling.cc_mat Samples.small_grid = two_d c /\
     Numpy.entry c 0 0 = 0x1.fffffffffffffp-1 /\
     Numpy.entry c 0 0 <> 1 /\
     Numpy.entry c 0 1 <> Numpy.entry c 1 0) /\
  (shape2 1 3 Samples.one_channel /\
   Forall (fun row => Numpy.var row <> 0) Samples.one_channel /\
   Modeling.cc_mat Samples.one_channel = zero_d 1 /\
   forall c, Modeling.cc_mat Samples.one_channel <> two_d c).
Proof.
  split.
  - split; [unfold Samples.small_grid; solve_shape|].
    split; [repeat constructor; float_neq|].
    eexists. split; [vm_compute; reflexivity|].
    split; [vm_compute; reflexivity|].
    split; float_neq.
  - split; [unfold Samples.one_channel; solve_shape|].
    split; [repeat constructor; float_neq|].
    split; [vm_compute; reflexivity|].
    intros c Heq. vm_compute in Heq. discriminate Heq.
Qed.

End CorrcoefBinary64.

(** ** Scaling turns regression into correlation *)

Section ScalingExact.

Local Open Scope R_scope.

Lemma scale_R (a : list R) :
  Modeling.scale a = map (fun y => y / Numpy.std a) (Numpy.center a).
Proof.
  unfold Modeling.scale, Numpy.center. rewrite map_map. reflexivity.
Qed.

Lemma scale_length (a : list R) : length (Modeling.scale a) = length a.
Proof. apply length_map. Qed.

Lemma dot_R_scaled (u v : list R) (k l : R) :
  k <> 0 -> l <> 0 ->
  Numpy.dot (map (fun y => y / k) u) (map (fun y => y / l) v) =
  Numpy.dot u v / (k * l).
Proof.
  intros Hk Hl. rewrite !dot_R.
  revert v; induction u as [|x u IH]; intros [|y v]; simpl;
    try (field; split; assumption).
  rewrite IH. field. split; assumption.
Qed.

Lemma std_nonzero (a : list R) :
  Numpy.std a <> 0 ->
  0 < Numpy.dot (Numpy.center a) (Numpy.center a) /\
  (2 <= length a)%nat /\
  Numpy.std a =
    sqrt (Numpy.dot (Numpy.center a) (Numpy.center a))
    / sqrt (INR (length a)).
Proof.
  intros Hs.
  assert (Hv : Numpy.var a <> 0).
  { intros Hz. apply Hs. unfold Numpy.std. simpl. rewrite Hz.
    apply sqrt_0. }
  destruct (var_nonzero a Hv) as [Hpos Hlen].
  repeat split; try assumption.
  unfold Numpy.std. simpl. rewrite var_R.
  apply sqrt_div_alt. apply lt_0_INR. lia.
Qed.

Lemma scaled_coef_algebra (D p q r : R) :
  0 < p -> 0 < q -> 0 < r ->
  D / ((p / r) * (q / r)) =
  (p * p) / ((p / r) * (p / r)) * (D / (q * p)).
Proof. intros Hp Hq Hr. field. repeat split; lra. Qed.

(** C10, in exact arithmetic, the fit specified as a weight of least
    squared error.  After rescaling two equally long vectors of nonzero
    standard deviation to mean 0 and variance 1, the weight that the
    no-intercept least-squares fit finds from scaled [a] to scaled [b] is
    the Pearson
    correlation coefficient [np.corrcoef(a, b)[1, 0]] of the original
    vectors. *)
Theorem scaled_regression_is_correlation (a b : list R) (w : R) :
  length a = length b ->
  Numpy.std a <> 0 -> Numpy.std b <> 0 ->
  Modeling.least_squares_coef (Modeling.scale a) (Modeling.scale b) w <->
  Numpy.item (Modeling.corr a b) 1 0 = Some w.
Proof.
  intros Hlen Hsa Hsb.
  destruct (std_nonzero a Hsa) as [Hda [Hna Ea]].
  destruct (std_nonzero b Hsb) as [Hdb [Hnb Eb]].
  set (ca := Numpy.center a) in *. set (cb := Numpy.center b) in *.
  set (w0 := Numpy.dot cb ca / (sqrt (Numpy.dot cb cb)
                                * sqrt (Numpy.dot ca ca))).
  assert (Hcorr : Numpy.item (Modeling.corr a b) 1 0 = Some w0).
  { unfold Modeling.corr. rewrite corrcoef_two_rows by (simpl; lia).
    simpl Numpy.item. f_equal.
    apply (normalised_entry_R 2 (length a) [a; b] 1 0).
    - split; [reflexivity|]. repeat constructor. symmetry. exact Hlen.
    - assert (Numpy.var a <> 0 /\ Numpy.var b <> 0) as [Hva Hvb].
      { split; intros Hz; [apply Hsa | apply Hsb]; unfold Numpy.std; simpl;
          rewrite Hz; apply sqrt_0. }
      repeat constructor; assumption.
    - lia.
    - lia. }
  rewrite Hcorr.
  assert (Hfit : Modeling.least_squares_coef
                   (Modeling.scale a) (Modeling.scale b) w <-> w = w0).
  { pose proof (sqrt_lt_R0 _ Hda) as Hp.
    pose proof (sqrt_lt_R0 _ Hdb) as Hq.
    assert (Hr : 0 < sqrt (INR (length a)))
      by (apply sqrt_lt_R0, lt_0_INR; lia).
    assert (Hsa' : Numpy.std a <> 0) by exact Hsa.
    assert (Hsb' : Numpy.std b <> 0) by exact Hsb.
    apply least_squares_iff.
    - rewrite !scale_length. exact Hlen.
    - rewrite !scale_R, dot_R_scaled by assumption. fold ca.
      apply Rdiv_lt_0_compat; [exact Hda|].
      rewrite Ea. apply Rmult_lt_0_compat;
        apply Rdiv_lt_0_compat; assumption.
    - rewrite !scale_R, !dot_R_scaled by assumption. fold ca cb.
      rewrite Ea, Eb, <- Hlen. unfold w0.
      rewrite (dot_R_comm cb ca).
      rewrite <- (sqrt_sqrt (Numpy.dot ca ca)) at 2 by lra.
      apply scaled_coef_algebra; assumption. }
  rewrite Hfit. split.
  - intros ->. reflexivity.
  - intros Heq. injection Heq as Heq. symmetry. exact Heq.
Qed.

Lemma scaled_regression_is_correlation_witness :
  let a := [0; 2] in
  let b := [3; 1] in
  (length a = length b /\ Numpy.std a <> 0 /\ Numpy.std b <> 0) /\
  (Modeling.least_squares_coef (Modeling.scale a) (Modeling.scale b) (-1) <->
   Numpy.item (Modeling.corr a b) 1 0 = Some (-1)).
Proof.
  intros a b.
  assert (Hlen : length a = length b) by reflexivity.
  assert (Hstd : Numpy.std a <> 0 /\ Numpy.std b <> 0).
  { subst a b. split; unfold Numpy.std; simpl f_sqrt;
      rewrite var_R, dot_R; unfold Numpy.center; rewrite mean_R; simpl;
      match goal with
      | |- sqrt ?e <> 0 => replace e with 1 by field
      end; rewrite sqrt_1; lra. }
  destruct Hstd as [Hsa Hsb].
  split; [split; [exact Hlen | split; assumption] |].
  apply (scaled_regression_is_correlation a b (-1) Hlen Hsa Hsb).
Defined.

End ScalingExact.

Section ScalingBinary64.

Import PrimFloat Binary64.

(** C10 as stated fails on [float64] data.  For [a = [0, 2]] and
    [b = [3, 1]] the scaled arrays are exactly [[-1, 1]] and [[1, -1]],
    whose weight of least squared error is [-1], and the two arrays are
    perfectly anti-correlated; but [np.corrcoef(a, b)[1, 0]] evaluates to
    [-(1 - 2^-53)], so the correlation that the notebook computes is not
    the least-squares coefficient of the scaled arrays: no [float64]
    coefficient that is that weight equals it. *)
Lemma scaled_fit_binary64_not_corr :
  let a := [0%float; 2%float] in
  let b := [3%float; 1%float] in
  Modeling.scale a = [(-1)%float; 1%float] /\
  Modeling.scale b = [1%float; (-1)%float] /\
  (forall w : R,
     Modeling.least_squares_coef [(-1)%R; 1%R] [1%R; (-1)%R] w <->
     w = (-1)%R) /\
  Numpy.item (Modeling.corr a b) 1 0 = Some (-0x1.fffffffffffffp-1)%float /\
  forall (coef : PrimFloat.float) (w : R),
    Binary64.float_R coef = Some w ->
    Modeling.least_squares_coef [(-1)%R; 1%R] [1%R; (-1)%R] w ->
    Some coef <> Numpy.item (Modeling.corr a b) 1 0.
Proof.
  intros a b.
  assert (Hfit : forall w : R,
            Modeling.least_squares_coef [(-1)%R; 1%R] [1%R; (-1)%R] w <->
            w = (-1)%R).
  { intros w.
    apply (least_squares_iff [(-1)%R; 1%R] [1%R; (-1)%R] w (-1)%R).
    - reflexivity.
    - rewrite dot_R. simpl. lra.
    - rewrite !dot_R. simpl. lra. }
  assert (Hcorr : Numpy.item (Modeling.corr a b) 1 0 =
                  Some (-0x1.fffffffffffffp-1)%float)
    by (vm_compute; reflexivity).
  split; [vm_compute; reflexivity|].
  split; [vm_compute; reflexivity|].
  split; [exact Hfit|]. split; [exact Hcorr|].
  intros coef w Hval Hmin Heq. rewrite Hcorr in Heq. injection Heq as ->.
  apply Hfit in Hmin. subst w. revert Hval.
  apply (float_R_neq _ (-1 # 1)).
  - unfold Q2R. simpl. lra.
  - intros q0 Hq. vm_compute in Hq. injection Hq as <-.
    vm_compute. discriminate.
Qed.

End ScalingBinary64.

(** ** Epochs *)

Section EpochsFacts.

Import Epoching.
Local Open Scope Z_scope.




Lemma has_repeat_false (events : list Z) :
  has_repeat events = false <-> NoDup events.
Proof.
  induction events as [|ev rest IH]; simpl.
  - split; [constructor | reflexivity].
  - rewrite orb_false_iff, IH. split.
    + intros [Hex Hnd]. constructor; [|exact Hnd].
      intros Hin. rewrite <- not_true_iff_false in Hex. apply Hex.
      apply existsb_exists. exists ev. split; [exact Hin | apply Z.eqb_refl].
    + intros Hnd. apply NoDup_cons_iff in Hnd as [Hnin Hnd].
      split; [|exact Hnd]. rewrite <- not_true_iff_false. intros Hex.
      apply existsb_exists in Hex as [y [Hy Heq]].
      apply Z.eqb_eq in Heq. subst y. contradiction.
Qed.

Context {T : Type}.



Lemma get_epoch_some (raw : Raw T) (start : Z) (len : nat) (ev : Z) :
  window_fits raw start len ev <->
  get_epoch raw start len ev =
  Some (map (fun ch => firstn len
                         (skipn (Z.to_nat (ev - first_samp raw + start)) ch))
            (raw_data raw)).
Proof.
  unfold window_fits, get_epoch.
  destruct ((ev - first_samp raw + start <? 0)
            || (Z.of_nat (n_samples raw) <?
                ev - first_samp raw + start + Z.of_nat len)) eqn:Hout.
  - split; [|discriminate]. intros [Hlo Hhi].
    apply orb_true_iff in Hout as [Ho|Ho]; apply Z.ltb_lt in Ho; lia.
  - split; [reflexivity|]. intros _.
    apply orb_false_iff in Hout as [Hlo Hhi].
    apply Z.ltb_ge in Hlo. apply Z.ltb_ge in Hhi. lia.
Qed.

Lemma get_epoch_fits (raw : Raw T) (start : Z) (len : nat) (ev : Z)
      (ep : list (list T)) :
  get_epoch raw start len ev = Some ep -> window_fits raw start len ev.
Proof.
  intros Hget. apply get_epoch_some. rewrite Hget. unfold get_epoch in *.
  destruct ((ev - first_samp raw + start <? 0)
            || (Z.of_nat (n_samples raw) <?
                ev - first_samp raw + start + Z.of_nat len));
    [discriminate | symmetry; exact Hget].
Qed.

Lemma windows_come_from_events (raw : Raw T) (start : Z) (len : nat)
      (events : list Z) :
  (length (windows raw start len events) <= length events)%nat /\
  (forall ep, In ep (windows raw start len events) ->
     exists ev, In ev events /\ window_fits raw start len ev /\
                get_epoch raw start len ev = Some ep) /\
  (Forall (window_fits raw start len) events ->
   length (windows raw start len events) = length events).
Proof.
  induction events as [|ev events [IHlen [IHin IHall]]]; simpl.
  - split; [lia|]. split; [intros ep []|reflexivity].
  - destruct (get_epoch raw start len ev) as [ep0|] eqn:Hget.
    + split; [simpl; lia|]. split.
      * intros ep [<-|Hin].
        -- exists ev. split; [left; reflexivity|].
           split; [exact (get_epoch_fits raw start len ev ep0 Hget)
                  | exact Hget].
        -- destruct (IHin ep Hin) as [ev' [Hev [Hfit Hg]]].
           exists ev'. split; [right; exact Hev|]. split; assumption.
      * intros Hall. apply Forall_cons_iff in Hall as [_ Hall].
        simpl. rewrite (IHall Hall). reflexivity.
    + split; [lia|]. split.
      * intros ep Hin. destruct (IHin ep Hin) as [ev' [Hev [Hfit Hg]]].
        exists ev'. split; [right; exact Hev|]. split; assumption.
      * intros Hall. apply Forall_cons_iff in Hall as [Hfit _].
        apply get_epoch_some in Hfit. congruence.
Qed.



End EpochsFacts.

Section EpochsExamples.

Import PrimFloat Epoching.
Local Open Scope Z_scope.



(** The [float64] product is rounded, not the exact one: the literal
    [0.545] times 100 is a little more than 54.5 in [float64], and a
    window from 0 to 0.545 s at 100 Hz has 56 samples.  A window that ends
    before it starts has none: MNE raises. *)
Example epochs_round_the_float_product :
  n_times 0%float 0x1.170a3d70a3d71p-1%float 100%float = Some 56%nat /\
  n_times 0.5%float (-0.5)%float 100%float = None.
Proof. split; vm_compute; reflexivity. Qed.

End EpochsExamples.

(** * Further properties *)

(** ** Referencing: the choice of reference does not survive averaging *)

Section ReferencingExact.

Local Open Scope R_scope.

Lemma matrix_ext (n m : nat) (A B : list (list R)) :
  shape2 n m A -> shape2 n m B ->
  (forall c t, (c < n)%nat -> (t < m)%nat ->
     Numpy.entry A c t = Numpy.entry B c t) ->
  A = B.
Proof.
  intros [HA HAall] [HB HBall] Hent.
  apply (nth_ext A B [] []); [lia|].
  intros c Hc. rewrite HA in Hc.
  rewrite Forall_forall in HAall, HBall.
  assert (Hla : length (nth c A []) = m) by (apply HAall, nth_In; lia).
  assert (Hlb : length (nth c B []) = m) by (apply HBall, nth_In; lia).
  apply (nth_ext _ _ 0 0); [lia|].
  intros t Ht. rewrite Hla in Ht. apply (Hent c t Hc Ht).
Qed.

Lemma mean_shift (l : list R) (k : R) :
  l <> [] -> Numpy.mean (map (fun x => x - k) l) = Numpy.mean l - k.
Proof.
  intros Hl. rewrite !mean_R, sumR_map_minus, length_map.
  assert (0 < INR (length l)).
  { apply INR_length_pos. destruct l; [congruence | simpl; lia]. }
  field. lra.
Qed.

(** Subtracting one and the same signal from every channel changes
    nothing once the common average is removed. *)
Lemma car_shift_invariant (n m : nat) (d : list (list R)) (v : list R) :
  shape2 n m d -> length v = m ->
  Referencing.common_average_reference (Numpy.sub_rows d v) =
  Referencing.common_average_reference d.
Proof.
  intros Hd Hv.
  assert (Hd' : shape2 n m (Numpy.sub_rows d v))
    by (apply sub_rows_shape; assumption).
  destruct (Nat.eq_dec n 0) as [Hn0|Hn0].
  { destruct Hd as [Hn _]. destruct d; [reflexivity | simpl in Hn; lia]. }
  assert (Hpos : (0 < n)%nat) by lia.
  apply (matrix_ext n m).
  - apply sub_rows_shape; [exact Hd'|].
    apply mean_axis0_rows_length with (n := n); assumption.
  - apply sub_rows_shape; [exact Hd|].
    apply mean_axis0_rows_length with (n := n); assumption.
  - intros c t Hc Ht.
    rewrite (car_entry_R n m _ c t Hd' Hc Ht).
    rewrite (car_entry_R n m d c t Hd Hc Ht).
    rewrite (column_sub_rows n m d v t Hd Hv Ht).
    rewrite mean_shift.
    + rewrite (sub_rows_entry n m d v c t Hd Hv Hc Ht).
      change (@f_sub R R_scalar) with Rminus.
      change (@f_zero R R_scalar) with 0. lra.
    + destruct Hd as [Hn _]. destruct d; [simpl in Hn; lia | discriminate].
Qed.

(** X2. After referencing to one channel, that channel is identically
    zero. *)
Theorem data_ref_reference_channel_zero (n m : nat) (d : list (list R))
        (ref_chan t : nat) :
  shape2 n m d -> (ref_chan < n)%nat -> (t < m)%nat ->
  Numpy.entry (Referencing.data_ref ref_chan d) ref_chan t = 0.
Proof.
  intros Hd Hr Ht. unfold Referencing.data_ref.
  rewrite (sub_rows_entry n m d _ ref_chan t Hd
             (shape2_nth n m d ref_chan Hd Hr) Hr Ht).
  change (@f_sub R R_scalar) with Rminus. unfold Numpy.entry. lra.
Qed.

Lemma data_ref_reference_channel_zero_witness :
  let d := [[1; 5]; [3; 9]] in
  (shape2 2 2 d /\ (1 < 2)%nat /\ (0 < 2)%nat) /\
  Numpy.entry (Referencing.data_ref 1 d) 1 0 = 0.
Proof.
  intros d.
  assert (Hd : shape2 2 2 d) by (subst d; solve_shape).
  split; [split; [exact Hd | lia] |].
  apply (data_ref_reference_channel_zero 2 2 d 1 0 Hd); lia.
Defined.

(** X3. The common average reference forgets any earlier reference:
    re-referencing data that was referenced to a single channel gives the
    same as re-referencing the data itself. *)
Theorem car_after_data_ref (n m : nat) (d : list (list R)) (ref_chan : nat) :
  shape2 n m d -> (ref_chan < n)%nat ->
  Referencing.common_average_reference (Referencing.data_ref ref_chan d) =
  Referencing.common_average_reference d.
Proof.
  intros Hd Hr. unfold Referencing.data_ref.
  apply (car_shift_invariant n m d _ Hd).
  apply (shape2_nth n m d ref_chan Hd Hr).
Qed.

Lemma car_after_data_ref_witness :
  let d := [[1; 5]; [3; 9]] in
  (shape2 2 2 d /\ (0 < 2)%nat) /\
  Referencing.common_average_reference (Referencing.data_ref 0 d) =
  Referencing.common_average_reference d.
Proof.
  intros d.
  assert (Hd : shape2 2 2 d) by (subst d; solve_shape).
  split; [split; [exact Hd | lia] |].
  apply (car_after_data_ref 2 2 d 0 Hd). lia.
Defined.

End ReferencingExact.

Section ReferencingWitness.

Import PrimFloat Binary64.
Local Open Scope float_scope.

Lemma data_ref_entry_witness :
  let d := [[1; 5]; [3; 9]] in
  (shape2 2 2 d /\ (0 < 2)%nat /\ (1 < 2)%nat /\ (1 < 2)%nat) /\
  Numpy.entry (Referencing.data_ref 0 d) 1 1 =
  f_sub (Numpy.entry d 1 1) (Numpy.entry d 0 1).
Proof.
  intros d.
  assert (Hd : shape2 2 2 d) by (subst d; solve_shape).
  split; [split; [exact Hd | lia] |].
  apply (data_ref_entry 2 2 d 0 1 1 Hd); lia.
Defined.

End ReferencingWitness.

(** ** Scaling to standard units *)

Section StandardUnits.

Local Open Scope R_scope.

Lemma sumR_map_div (l : list R) (k : R) :
  sumR (map (fun y => y / k) l) = sumR l / k.
Proof.
  induction l as [|x l IH]; simpl.
  - unfold Rdiv. rewrite Rmult_0_l. reflexivity.
  - rewrite IH. unfold Rdiv. ring.
Qed.

Lemma sumR_center (a : list R) : sumR (Numpy.center a) = 0.
Proof. unfold Numpy.center. apply sumR_centered. Qed.

Lemma mean_scale (a : list R) : Numpy.mean (Modeling.scale a) = 0.
Proof.
  rewrite scale_R, mean_R, sumR_map_div, sumR_center.
  unfold Rdiv. rewrite !Rmult_0_l. reflexivity.
Qed.

(** X4. Scaling does what the notebook says of it: the scaled signal has
    mean 0, variance 1 and standard deviation 1. *)
Theorem scale_standard_units (a : list R) :
  Numpy.std a <> 0 ->
  Numpy.mean (Modeling.scale a) = 0 /\
  Numpy.var (Modeling.scale a) = 1 /\
  Numpy.std (Modeling.scale a) = 1.
Proof.
  intros Hs.
  destruct (std_nonzero a Hs) as [Hd [Hn Es]].
  assert (Hv : Numpy.var (Modeling.scale a) = 1).
  { unfold Numpy.var. rewrite mean_scale.
    assert (Hmap : map (fun x => Numpy.square (x - 0)) (Modeling.scale a) =
                   map Numpy.square (Modeling.scale a))
      by (apply map_ext; intros x; f_equal; lra).
    change (@f_sub R R_scalar) with Rminus.
    rewrite Hmap, mean_R, length_map, scale_length, <- dot_R_same.
    rewrite !scale_R, dot_R_scaled by assumption.
    assert (Hr : 0 < sqrt (INR (length a)))
      by (apply sqrt_lt_R0, lt_0_INR; lia).
    pose proof (sqrt_lt_R0 _ Hd) as Hp.
    rewrite Es.
    rewrite <- (sqrt_sqrt (Numpy.dot (Numpy.center a) (Numpy.center a)))
      at 1 by lra.
    rewrite <- (sqrt_sqrt (INR (length a))) at 3
      by (apply pos_INR).
    field. split; lra. }
  split; [apply mean_scale|]. split; [exact Hv|].
  unfold Numpy.std. rewrite Hv. apply sqrt_1.
Qed.

Lemma scale_standard_units_witness :
  let a := [0; 2] in
  Numpy.std a <> 0 /\
  Numpy.mean (Modeling.scale a) = 0 /\
  Numpy.var (Modeling.scale a) = 1 /\
  Numpy.std (Modeling.scale a) = 1.
Proof.
  intros a.
  assert (Hs : Numpy.std a <> 0).
  { subst a. unfold Numpy.std; simpl f_sqrt;
      rewrite var_R, dot_R; unfold Numpy.center; rewrite mean_R; simpl;
      match goal with
      | |- sqrt ?e <> 0 => replace e with 1 by field
      end; rewrite sqrt_1; lra. }
  split; [exact Hs|].
  apply (scale_standard_units a Hs).
Defined.

End StandardUnits.

(** ** Re-baselining *)

Section BaselineExact.

Local Open Scope R_scope.

Lemma window_map (f : R -> R) (imin imax : nat) (row : list R) :
  Baseline.window imin imax (map f row) =
  map f (Baseline.window imin imax row).
Proof.
  unfold Baseline.window. rewrite skipn_map, firstn_map. reflexivity.
Qed.

Lemma window_length (imin imax : nat) (row : list R) :
  (imax <= length row)%nat ->
  length (Baseline.window imin imax row) = (imax - imin)%nat.
Proof.
  intros Hle. unfold Baseline.window.
  rewrite length_firstn, length_skipn. lia.
Qed.

Lemma window_nonempty (imin imax : nat) (row : list R) :
  (imin < imax)%nat -> (imax <= length row)%nat ->
  Baseline.window imin imax row <> [].
Proof.
  intros Hlt Hle Hnil.
  pose proof (window_length imin imax row Hle) as Hlen.
  rewrite Hnil in Hlen. simpl in Hlen. lia.
Qed.

Lemma rescale_row_length (imin imax : nat) (row : list R) :
  length (Baseline.rescale_row imin imax row) = length row.
Proof. apply length_map. Qed.

Lemma rescale_row_baseline_zero (imin imax : nat) (row : list R) :
  (imin < imax)%nat -> (imax <= length row)%nat ->
  Numpy.mean (Baseline.window imin imax
                (Baseline.rescale_row imin imax row)) = 0.
Proof.
  intros Hlt Hle. unfold Baseline.rescale_row.
  change (@f_sub R R_scalar) with Rminus.
  rewrite window_map, mean_shift by (apply window_nonempty; assumption).
  lra.
Qed.

(** Rescaling a row that an earlier pass has shifted gives what rescaling
    the row itself gives. *)
Lemma rescale_row_absorbs (imin imax imin' imax' : nat) (row : list R) :
  (imin < imax)%nat -> (imax <= length row)%nat ->
  Baseline.rescale_row imin imax (Baseline.rescale_row imin' imax' row) =
  Baseline.rescale_row imin imax row.
Proof.
  intros Hlt Hle. unfold Baseline.rescale_row at 1 3.
  change (@f_sub R R_scalar) with Rminus.
  unfold Baseline.rescale_row.
  change (@f_sub R R_scalar) with Rminus.
  rewrite window_map, mean_shift by (apply window_nonempty; assumption).
  rewrite map_map. apply map_ext. intros x. lra.
Qed.

Lemma rescale_shape (imin imax k n m : nat) (data : list (list (list R))) :
  shape3 k n m data -> shape3 k n m (Baseline.rescale imin imax data).
Proof.
  intros [Hk Hall]. unfold Baseline.rescale. split.
  - rewrite length_map. exact Hk.
  - rewrite Forall_map. eapply Forall_impl; [|exact Hall].
    intros ep [Hn Hrows]. split.
    + rewrite length_map. exact Hn.
    + rewrite Forall_map. eapply Forall_impl; [|exact Hrows].
      intros row Hrow. unfold shape1 in *.
      rewrite rescale_row_length. exact Hrow.
Qed.

Lemma rescale_absorbs (imin imax imin' imax' k n m : nat)
      (data : list (list (list R))) :
  shape3 k n m data -> (imin < imax)%nat -> (imax <= m)%nat ->
  Baseline.rescale imin imax (Baseline.rescale imin' imax' data) =
  Baseline.rescale imin imax data.
Proof.
  intros [Hk Hall] Hlt Hle. unfold Baseline.rescale.
  rewrite map_map. apply map_ext_in. intros ep Hep.
  rewrite map_map. apply map_ext_in. intros row Hrow.
  rewrite Forall_forall in Hall. destruct (Hall ep Hep) as [_ Hrows].
  rewrite Forall_forall in Hrows. specialize (Hrows row Hrow).
  unfold shape1 in Hrows.
  apply rescale_row_absorbs; lia.
Qed.

Lemma rescale_loop_shape (bs : list (nat * nat)) (k n m : nat)
      (data : list (list (list R))) :
  shape3 k n m data -> shape3 k n m (Baseline.rescale_loop bs data).
Proof.
  revert data. induction bs as [|b bs IH]; intros data Hd; simpl.
  - exact Hd.
  - apply IH. apply rescale_shape. exact Hd.
Qed.

(** The samples [imin .. imax - 1] of a row, picked one by one. *)
Lemma window_samples (imin imax : nat) (row : list R) :
  (imax <= length row)%nat ->
  Baseline.window imin imax row =
  map (fun i => nth i row 0) (seq imin (imax - imin)).
Proof.
  intros Hle. apply (nth_ext _ _ 0 0).
  - rewrite window_length, length_map, length_seq by exact Hle. reflexivity.
  - intros i Hi. rewrite window_length in Hi by exact Hle.
    unfold Baseline.window. rewrite nth_firstn.
    assert (Hlt : (i <? imax - imin)%nat = true) by (apply Nat.ltb_lt; exact Hi).
    rewrite Hlt, nth_skipn.
    rewrite (map_nth_in (fun i => nth i row 0) (seq imin (imax - imin)) i
               0%nat 0) by (rewrite length_seq; exact Hi).
    rewrite seq_nth by exact Hi. reflexivity.
Qed.

(** X5. After re-baselining, the mean over the baseline window is zero in
    every channel of every epoch: the samples [imin .. imax - 1] of the
    row add up to zero. *)
Theorem rescale_baseline_mean_zero (imin imax k n m : nat)
        (data : list (list (list R))) :
  shape3 k n m data -> (imin < imax)%nat -> (imax <= m)%nat ->
  Forall (Forall (fun row =>
            sumR (map (fun i => nth i row 0) (seq imin (imax - imin)))
            / INR (imax - imin) = 0))
         (Baseline.rescale imin imax data).
Proof.
  intros [Hk Hall] Hlt Hle. unfold Baseline.rescale.
  rewrite Forall_map. eapply Forall_impl; [|exact Hall].
  intros ep [Hn Hrows].
  rewrite Forall_map. eapply Forall_impl; [|exact Hrows].
  intros row Hrow. unfold shape1 in Hrow.
  assert (Hle' : (imax <= length (Baseline.rescale_row imin imax row))%nat)
    by (rewrite rescale_row_length; lia).
  rewrite <- (window_samples imin imax _ Hle').
  rewrite <- (window_length imin imax _ Hle'), <- mean_R.
  apply rescale_row_baseline_zero; lia.
Qed.

Lemma rescale_baseline_mean_zero_witness :
  let data := [[[1; 2; 6]; [0; 4; 4]]] in
  (shape3 1 2 3 data /\ (0 < 2)%nat /\ (2 <= 3)%nat) /\
  Forall (Forall (fun row =>
            sumR (map (fun i => nth i row 0) (seq 0 (2 - 0)))
            / INR (2 - 0) = 0))
         (Baseline.rescale 0 2 data).
Proof.
  intros data.
  assert (Hd : shape3 1 2 3 data) by (subst data; solve_shape).
  split; [split; [exact Hd | lia] |].
  apply (rescale_baseline_mean_zero 0 2 1 2 3 data Hd); lia.
Defined.

(** X6. Re-baselining in place in a loop does not pile up: after any
    number of earlier passes, the array holds the original data
    re-baselined with the last window alone. *)
Theorem rescale_loop_last_wins (bs : list (nat * nat)) (imin imax k n m : nat)
        (data : list (list (list R))) :
  shape3 k n m data -> (imin < imax)%nat -> (imax <= m)%nat ->
  Baseline.rescale_loop (bs ++ [(imin, imax)]) data =
  Baseline.rescale imin imax data.
Proof.
  intros Hd Hlt Hle. unfold Baseline.rescale_loop.
  rewrite fold_left_app. simpl.
  fold (Baseline.rescale_loop bs data).
  revert data Hd. induction bs as [|b bs IH]; intros data Hd; simpl.
  - reflexivity.
  - rewrite IH by (apply rescale_shape; exact Hd).
    apply (rescale_absorbs imin imax (fst b) (snd b) k n m data Hd Hlt Hle).
Qed.

Lemma rescale_loop_last_wins_witness :
  let data := [[[1; 2; 6]; [0; 4; 4]]] in
  (shape3 1 2 3 data /\ (1 < 3)%nat /\ (3 <= 3)%nat) /\
  Baseline.rescale_loop ([(0, 2); (0, 1)] ++ [(1, 3)])%nat data =
  Baseline.rescale 1 3 data.
Proof.
  intros data.
  assert (Hd : shape3 1 2 3 data) by (subst data; solve_shape).
  split; [split; [exact Hd | lia] |].
  apply (rescale_loop_last_wins [(0, 2); (0, 1)]%nat 1 3 1 2 3 data Hd); lia.
Defined.

End BaselineExact.

(** ** Averaging over epochs and channels *)

Section GrandAverage.

Local Open Scope R_scope.

Lemma map_seq_nth {A B : Type} (f : A -> B) (l : list A) (d : A) :
  map f l = map (fun i => f (nth i l d)) (seq 0 (length l)).
Proof.
  apply (nth_ext _ _ (f d) (f d)).
  - rewrite !length_map, length_seq. reflexivity.
  - intros i Hi. rewrite length_map in Hi.
    rewrite (map_nth f l d).
    rewrite (map_nth_in (fun i => f (nth i l d)) (seq 0 (length l)) i 0%nat)
      by (rewrite length_seq; exact Hi).
    rewrite seq_nth by exact Hi. reflexivity.
Qed.

Lemma sumR_map_plus {A : Type} (f g : A -> R) (l : list A) :
  sumR (map (fun x => f x + g x) l) = sumR (map f l) + sumR (map g l).
Proof. induction l as [|x l IH]; simpl; [lra | rewrite IH; lra]. Qed.

Lemma sumR_map_zero {A : Type} (l : list A) :
  sumR (map (fun _ => 0) l) = 0.
Proof. induction l as [|x l IH]; simpl; [lra | rewrite IH; lra]. Qed.

(** A double sum may be taken in either order. *)
Lemma sumR_swap {A B : Type} (F : A -> B -> R) (xs : list A) (ys : list B) :
  sumR (map (fun x => sumR (map (fun y => F x y) ys)) xs) =
  sumR (map (fun y => sumR (map (fun x => F x y) xs)) ys).
Proof.
  induction xs as [|x xs IH]; simpl.
  - rewrite sumR_map_zero. reflexivity.
  - rewrite IH, <- sumR_map_plus. reflexivity.
Qed.

Lemma sumR_flat_map {A : Type} (g : A -> list R) (l : list A) :
  sumR (flat_map g l) = sumR (map (fun x => sumR (g x)) l).
Proof.
  induction l as [|x l IH]; simpl; [reflexivity|].
  assert (Happ : forall u v, sumR (u ++ v) = sumR u + sumR v)
    by (induction u as [|y u IHu]; intros v; simpl;
        [lra | rewrite IHu; lra]).
  rewrite Happ, IH. reflexivity.
Qed.

Lemma all_at_length (k n m : nat) (e : list (list (list R))) (t : nat) :
  shape3 k n m e -> length (Averages.all_at t e) = (k * n)%nat.
Proof.
  intros [Hk Hall]. subst k. unfold Averages.all_at.
  induction Hall as [|ep e [Hn _] Hall IH]; simpl; [reflexivity|].
  rewrite length_app, IH, column_length, Hn. reflexivity.
Qed.

(** X7. The order of averaging does not matter: the channel average of
    the trial average is, at every timepoint, the mean of all the values
    recorded at that timepoint, over epochs and channels alike: their sum
    divided by their number [k * n]. *)
Theorem mean_over_channels_of_erp (k n m : nat) (e : list (list (list R)))
        (t : nat) :
  shape3 k n m e -> (0 < k)%nat -> (0 < n)%nat -> (t < m)%nat ->
  nth t (Averages.mean_over_channels (Epoching.mean_epoch e)) 0 =
  sumR (Averages.all_at t e) / INR (k * n).
Proof.
  intros He Hk Hn Ht.
  pose proof (mean_axis0_matrices_shape k n m e He Hk) as HM.
  unfold Averages.mean_over_channels, Epoching.mean_epoch.
  rewrite (mean_axis0_rows_nth_R n m _ t HM Hn Ht).
  rewrite !mean_R, column_length.
  destruct HM as [HMn HMall]. rewrite HMn.
  assert (Hcol : Numpy.column t (Numpy.mean_axis0 e) =
                 map (fun c => sumR (Numpy.across c t e) / INR k)
                     (seq 0 n)).
  { unfold Numpy.column.
    rewrite (map_seq_nth (fun row => nth t row f_zero) _ []), HMn.
    apply map_ext_in. intros c Hc. apply in_seq in Hc.
    change (nth t (nth c (Numpy.mean_axis0 e) []) f_zero)
      with (Numpy.entry (Numpy.mean_axis0 e) c t).
    rewrite (mean_axis0_matrices_entry k n m e c t He Hk) by lia.
    rewrite mean_R, across_length. destruct He as [Hlen _].
    rewrite Hlen. reflexivity. }
  rewrite Hcol.
  assert (Hsum : sumR (Averages.all_at t e) =
                 sumR (map (fun c => sumR (Numpy.across c t e)) (seq 0 n))).
  { unfold Averages.all_at. rewrite sumR_flat_map.
    unfold Numpy.across.
    rewrite (sumR_swap (fun c ep => Numpy.entry ep c t) (seq 0 n) e).
    destruct He as [_ Hall]. rewrite Forall_forall in Hall.
    f_equal. apply map_ext_in. intros ep Hep.
    destruct (Hall ep Hep) as [Hlen _].
    unfold Numpy.column.
    rewrite (map_seq_nth (fun row => nth t row f_zero) ep []), Hlen.
    reflexivity. }
  rewrite Hsum.
  replace (map (fun c => sumR (Numpy.across c t e) / INR k) (seq 0 n))
    with (map (fun y => y / INR k)
              (map (fun c => sumR (Numpy.across c t e)) (seq 0 n)))
    by (rewrite map_map; reflexivity).
  rewrite sumR_map_div, mult_INR.
  assert (0 < INR k) by (apply lt_0_INR; exact Hk).
  assert (0 < INR n) by (apply lt_0_INR; exact Hn).
  field. split; lra.
Qed.

Lemma mean_over_channels_of_erp_witness :
  let e := [[[1; 2]; [3; 4]]; [[5; 6]; [7; 0]]] in
  (shape3 2 2 2 e /\ (0 < 2)%nat /\ (0 < 2)%nat /\ (1 < 2)%nat) /\
  nth 1 (Averages.mean_over_channels (Epoching.mean_epoch e)) 0 =
  sumR (Averages.all_at 1 e) / INR (2 * 2).
Proof.
  intros e.
  assert (He : shape3 2 2 2 e) by (subst e; solve_shape).
  split; [split; [exact He | lia] |].
  apply (mean_over_channels_of_erp 2 2 2 e 1 He); lia.
Defined.

End GrandAverage.

(** ** Events from onset times *)

Section RoundingFacts.

Import Epoching.
Local Open Scope Q_scope.

Lemma py_round_cases (q : Q) :
  (q - inject_Z (Qfloor q) < 1 # 2 /\ py_round q = Qfloor q) \/
  (1 # 2 < q - inject_Z (Qfloor q) /\ py_round q = (Qfloor q + 1)%Z) \/
  (q - inject_Z (Qfloor q) == 1 # 2 /\
   (py_round q = Qfloor q \/ py_round q = (Qfloor q + 1)%Z)).
Proof.
  unfold py_round.
  destruct (q - inject_Z (Qfloor q) ?= 1 # 2) eqn:Hc.
  - right. right. split; [apply Qeq_alt; exact Hc|].
    destruct (Z.even (Qfloor q)); [left | right]; reflexivity.
  - left. split; [apply Qlt_alt; exact Hc | reflexivity].
  - right. left. split; [apply Qgt_alt; exact Hc | reflexivity].
Qed.

Lemma floor_bounds (q : Q) :
  inject_Z (Qfloor q) <= q /\ q < inject_Z (Qfloor q) + 1.
Proof.
  split; [apply Qfloor_le|].
  pose proof (Qlt_floor q) as Hlt.
  rewrite inject_Z_plus in Hlt. exact Hlt.
Qed.

(** Rounding moves a number by at most one half. *)
Lemma py_round_error (q : Q) :
  - (1 # 2) <= inject_Z (py_round q) - q <= 1 # 2.
Proof.
  destruct (floor_bounds q) as [Hlo Hhi].
  destruct (py_round_cases q) as [[Hc ->]|[[Hc ->]|[Hc [-> | ->]]]];
    rewrite ?inject_Z_plus; change (inject_Z 1) with 1; lra.
Qed.

End RoundingFacts.

Section EventsFacts.

Import Events.
Local Open Scope Z_scope.

Lemma ix_types_length (type : list String.string) :
  length (ix_types type) = length type.
Proof. apply length_map. Qed.

Lemma ix_onsets_some (start : list PrimFloat.float) (sfreq : PrimFloat.float)
      (onsets : list Z) :
  ix_onsets start sfreq = Some onsets ->
  length onsets = length start /\
  forall i, (i < length start)%nat ->
    ix_onset (nth i start PrimFloat.zero) sfreq = Some (nth i onsets 0).
Proof.
  revert onsets. induction start as [|s start IH]; simpl; intros onsets Hs.
  - injection Hs as <-. split; [reflexivity | intros i Hi; lia].
  - destruct (ix_onset s sfreq) as [o|] eqn:Ho; [|discriminate].
    destruct (ix_onsets start sfreq) as [os|] eqn:Hos; [|discriminate].
    injection Hs as <-. destruct (IH os eq_refl) as [Hlen Hnth].
    split; [simpl; lia|].
    intros [|i] Hi; simpl; [exact Ho | apply Hnth; lia].
Qed.

Lemma ix_onsets_defined (start : list PrimFloat.float)
      (sfreq : PrimFloat.float) :
  Forall (fun s => ix_onset s sfreq <> None) start ->
  exists onsets, ix_onsets start sfreq = Some onsets.
Proof.
  induction 1 as [|s start Hs _ [os IH]]; simpl.
  - exists []. reflexivity.
  - destruct (ix_onset s sfreq) as [o|]; [|contradiction].
    rewrite IH. exists (o :: os). reflexivity.
Qed.

Lemma ix_onset_rounds (s sfreq : PrimFloat.float) (o : Z) :
  ix_onset s sfreq = Some o ->
  exists q : Q,
    Binary64.float_Q (PrimFloat.mul s sfreq) = Some q /\
    o = Epoching.py_round q /\ - 2 ^ 63 <= o < 2 ^ 63.
Proof.
  unfold ix_onset, Epoching.round_float.
  destruct (Binary64.float_Q (PrimFloat.mul s sfreq)) as [q|];
    cbn [option_map]; [|discriminate].
  destruct ((- 2 ^ 63 <=? Epoching.py_round q)
            && (Epoching.py_round q <? 2 ^ 63)) eqn:Hin; [|discriminate].
  intros [= <-]. apply andb_true_iff in Hin as [Hlo Hhi].
  apply Z.leb_le in Hlo. apply Z.ltb_lt in Hhi.
  exists q. split; [reflexivity|]. split; [reflexivity | lia].
Qed.

(** X8. The events array is not built when the table has more onsets than
    types or fewer.  When it has as many and every onset, multiplied by
    the sampling frequency in [float64], rounds to an [int64], the array
    has one row of three columns per chord: the whole number nearest to
    that [float64] product (at most half a sample away from it), the
    constant 1, and the type, 1 for a consonant chord and 2 for any
    other. *)
Theorem events_rows (start : list PrimFloat.float)
        (type : list String.string) (sfreq : PrimFloat.float) :
  (length start <> length type -> events start type sfreq = None) /\
  (length start = length type ->
   Forall (fun s => ix_onset s sfreq <> None) start ->
   exists ev,
     events start type sfreq = Some ev /\
     length ev = length start /\
     forall i, (i < length start)%nat ->
       exists (o ty : Z) (q : Q),
         nth i ev [] = [o; 1; ty] /\
         Binary64.float_Q (PrimFloat.mul (nth i start PrimFloat.zero) sfreq)
         = Some q /\
         o = Epoching.py_round q /\
         (- (1 # 2) <= inject_Z o - q <= 1 # 2)%Q /\
         - 2 ^ 63 <= o < 2 ^ 63 /\
         (ty = 1 \/ ty = 2) /\
         (ty = 1 <-> nth i type ""%string = "consonant"%string)).
Proof.
  unfold events. split.
  - intros Hne.
    destruct (ix_onsets start sfreq) as [onsets|] eqn:Hos; [|reflexivity].
    destruct (ix_onsets_some start sfreq onsets Hos) as [Hlen _].
    rewrite Hlen, ix_types_length.
    apply Nat.eqb_neq in Hne. rewrite Hne. reflexivity.
  - intros Heq Hdef.
    destruct (ix_onsets_defined start sfreq Hdef) as [onsets Hos].
    rewrite Hos.
    destruct (ix_onsets_some start sfreq onsets Hos) as [Hlen Hnth].
    rewrite Hlen, ix_types_length.
    assert (Hb : (length start =? length type)%nat = true)
      by (apply Nat.eqb_eq; exact Heq).
    rewrite Hb. eexists. split; [reflexivity|].
    split.
    + rewrite zip_with_length, Hlen, ix_types_length. lia.
    + intros i Hi.
      destruct (ix_onset_rounds _ sfreq _ (Hnth i Hi)) as [q [Hq [Ho Hrange]]].
      exists (nth i onsets 0).
      exists (if String.eqb (nth i type ""%string) "consonant" then 1 else 2).
      exists q.
      split; [|split; [exact Hq | split; [exact Ho | split;
               [rewrite Ho; apply py_round_error | split; [exact Hrange|]]]]].
      * rewrite (zip_with_nth _ _ _ i 0 0)
          by (rewrite ?Hlen, ?ix_types_length; lia).
        unfold ix_types.
        rewrite (map_nth_in _ type i ""%string) by lia.
        reflexivity.
      * destruct (String.eqb (nth i type ""%string) "consonant") eqn:He.
        -- apply String.eqb_eq in He. split; [left; reflexivity|].
           split; intros _; [exact He | reflexivity].
        -- apply String.eqb_neq in He. split; [right; reflexivity|].
           split; [discriminate | intros Hc; contradiction].
Qed.

End EventsFacts.

Section EventsWitness.

Import PrimFloat Events.
Local Open Scope Z_scope.

Example events_of_two_chords :
  events [0.25%float; 0.5%float] ["consonant"; "dissonant"]%string
         100%float =
  Some [[25; 1; 1]; [50; 1; 2]].
Proof. vm_compute. reflexivity. Qed.

(** The [float64] product is rounded, not the exact one: the literal
    [0.575] times 100 is a little less than 57.5 in [float64] and gives
    sample 57.  And an onset whose product leaves the [int64] range has
    no index. *)
Example events_round_the_float_product :
  ix_onsets [0x1.2666666666666p-1%float] 100%float = Some [57] /\
  ix_onsets [1%float; 0x1.6345785d8ap+56%float] 100%float = None.
Proof. split; vm_compute; reflexivity. Qed.

Lemma events_rows_witness :
  let start := [0.25%float; 0.5%float] in
  let type := ["consonant"; "dissonant"]%string in
  (length start = length type /\
   Forall (fun s => ix_onset s 100%float <> None) start) /\
  exists ev, events start type 100%float = Some ev /\
             length ev = length start.
Proof.
  intros start type.
  assert (Hlen : length start = length type) by reflexivity.
  assert (Hdef : Forall (fun s => ix_onset s 100%float <> None) start)
    by (repeat constructor; vm_compute; discriminate).
  split; [split; assumption|].
  destruct (events_rows start type 100%float) as [_ Hsome].
  destruct (Hsome Hlen Hdef) as [ev [Hev [Hl _]]].
  exists ev. split; assumption.
Defined.

End EventsWitness.

(** ** Regression on the simulated signals *)

Section SimulationExact.

Local Open Scope R_scope.

Lemma mix_length (weight : R) (a noise : list R) :
  length a = length noise -> length (Simulation.mix weight a noise) = length a.
Proof.
  intros Hlen. unfold Simulation.mix.
  rewrite zip_with_length, length_map. lia.
Qed.

Lemma dot_mix (weight : R) (a noise : list R) :
  length a = length noise ->
  Numpy.dot a (Simulation.mix weight a noise) =
  Numpy.dot a a * weight + Numpy.dot a noise.
Proof.
  rewrite !dot_R. unfold Simulation.mix.
  revert noise; induction a as [|x a IH]; intros [|e noise] Hlen;
    simpl in *; try discriminate.
  - lra.
  - rewrite IH by lia. lra.
Qed.

(** X10. Fitting the simulated signal [b = weight * a + noise] recovers
    the weight up to the part of the noise that lies along [a]: the
    fitted coefficient is [weight + (sum a_i noise_i) / (sum a_i^2)]. *)
Theorem fit_recovers_weight (weight : R) (a noise : list R) (w : R) :
  length a = length noise ->
  Numpy.dot a a <> 0 ->
  Modeling.least_squares_coef a (Simulation.mix weight a noise) w <->
  w = weight + Numpy.dot a noise / Numpy.dot a a.
Proof.
  intros Hlen Hnz.
  pose proof (dot_R_same_nonneg a) as Hge.
  apply least_squares_iff.
  - rewrite mix_length by exact Hlen. reflexivity.
  - lra.
  - rewrite (dot_mix weight a noise Hlen). field. exact Hnz.
Qed.

Lemma fit_recovers_weight_witness :
  let a := [1; 2; 3] in
  let noise := [1; 0; -1] in
  (length a = length noise /\ Numpy.dot a a <> 0) /\
  (Modeling.least_squares_coef a (Simulation.mix 2 a noise) (13 / 7) <->
   13 / 7 = 2 + Numpy.dot a noise / Numpy.dot a a).
Proof.
  intros a noise.
  assert (Hlen : length a = length noise) by reflexivity.
  assert (Hnz : Numpy.dot a a <> 0) by (rewrite dot_R; simpl; lra).
  split; [split; assumption|].
  apply (fit_recovers_weight 2 a noise (13 / 7) Hlen Hnz).
Defined.

Lemma mix_no_noise (weight : R) (a : list R) :
  Simulation.mix weight a (map (fun _ => 0) a) =
  Simulation.b_preds weight a.
Proof.
  unfold Simulation.mix, Simulation.b_preds.
  induction a as [|x a IH]; simpl; [reflexivity|].
  f_equal; [lra | exact IH].
Qed.

(** X11. Without noise the fit is exact: the fitted coefficient is the
    weight itself, and the model's predictions at the inputs are the
    outputs. *)
Theorem fit_without_noise (weight : R) (a : list R) (w : R) :
  Numpy.dot a a <> 0 ->
  Modeling.least_squares_coef a (Simulation.mix weight a (map (fun _ => 0) a))
                              w ->
  w = weight /\
  Simulation.b_preds w a = Simulation.mix weight a (map (fun _ => 0) a).
Proof.
  intros Hnz Hfit.
  assert (Hlen : length a = length (map (fun _ : R => 0) a))
    by (rewrite length_map; reflexivity).
  pose proof (dot_R_same_nonneg a) as Hge.
  assert (Hw : w = weight).
  { apply (least_squares_iff a _ w weight) in Hfit; [exact Hfit | | lra |].
    - rewrite mix_length by exact Hlen. reflexivity.
    - rewrite (dot_mix weight a _ Hlen), !dot_R.
      assert (Hz : sumR (zip_with Rmult a (map (fun _ => 0) a)) = 0).
      { clear. induction a as [|x a IH]; simpl; [reflexivity|].
        rewrite IH. lra. }
      rewrite Hz. lra. }
  split; [exact Hw|]. rewrite Hw, mix_no_noise. reflexivity.
Qed.

Lemma fit_without_noise_witness :
  let a := [1; 2; 3] in
  (Numpy.dot a a <> 0 /\
   Modeling.least_squares_coef a (Simulation.mix 2 a (map (fun _ => 0) a)) 2)
  /\
  2 = 2 /\
  Simulation.b_preds 2 a = Simulation.mix 2 a (map (fun _ => 0) a).
Proof.
  intros a.
  assert (Hnz : Numpy.dot a a <> 0) by (rewrite dot_R; simpl; lra).
  assert (Hfit : Modeling.least_squares_coef a
                   (Simulation.mix 2 a (map (fun _ => 0) a)) 2).
  { apply (least_squares_iff a _ 2 2); [reflexivity | | | reflexivity].
    - rewrite dot_R. simpl. lra.
    - rewrite !dot_R. simpl. lra. }
  split; [split; assumption|].
  apply (fit_without_noise 2 a 2 Hnz Hfit).
Defined.

End SimulationExact.

(** ** Standard error under a change of units *)

Section StandardErrorScaling.

Local Open Scope R_scope.

Lemma sumR_map_mult (l : list R) (k : R) :
  sumR (map (Rmult k) l) = k * sumR l.
Proof. induction l as [|x l IH]; simpl; [lra | rewrite IH; lra]. Qed.

Lemma mean_map_mult (l : list R) (k : R) :
  Numpy.mean (map (Rmult k) l) = k * Numpy.mean l.
Proof.
  rewrite !mean_R, sumR_map_mult, length_map. unfold Rdiv. ring.
Qed.

Lemma var_nonneg (l : list R) : 0 <= Numpy.var l.
Proof.
  rewrite var_R. unfold Rdiv. apply Rmult_le_pos.
  - apply dot_R_same_nonneg.
  - destruct l as [|x l].
    + simpl. rewrite Rinv_0. lra.
    + apply Rlt_le, Rinv_0_lt_compat, INR_length_pos. simpl. lia.
Qed.

Lemma var_map_mult (l : list R) (k : R) :
  Numpy.var (map (Rmult k) l) = k * k * Numpy.var l.
Proof.
  unfold Numpy.var. rewrite mean_map_mult, map_map.
  change (@f_sub R R_scalar) with Rminus.
  replace (map (fun x => Numpy.square (k * x - k * Numpy.mean l)) l)
    with (map (Rmult (k * k))
              (map (fun x => Numpy.square (x - Numpy.mean l)) l)).
  - apply mean_map_mult.
  - rewrite map_map. apply map_ext. intros x. unfold Numpy.square. simpl.
    ring.
Qed.

Lemma var_map_shift (l : list R) (c : R) :
  l <> [] -> Numpy.var (map (fun x => x - c) l) = Numpy.var l.
Proof.
  intros Hl. unfold Numpy.var. rewrite (mean_shift l c Hl), map_map.
  change (@f_sub R R_scalar) with Rminus.
  f_equal. apply map_ext. intros x. f_equal. lra.
Qed.

(** X12. The standard error follows the units of the signal and ignores
    its level: multiplying every sample by [k] multiplies it by [|k|], and
    subtracting a constant from every sample of a non-empty signal leaves
    it unchanged; it is never negative. *)
Theorem standard_error_units (v : list R) (k c : R) :
  v <> [] ->
  ERP.standard_error (map (Rmult k) v) = Rabs k * ERP.standard_error v /\
  ERP.standard_error (map (fun x => x - c) v) = ERP.standard_error v /\
  0 <= ERP.standard_error v.
Proof.
  intros Hv. unfold ERP.standard_error. rewrite !ravel_1d, !length_map.
  change (@f_div R R_scalar) with Rdiv.
  change (@f_sqrt R R_scalar) with sqrt.
  unfold Numpy.std. change (@f_sqrt R R_scalar) with sqrt.
  split; [|split].
  - rewrite var_map_mult, sqrt_mult;
      [|apply Rle_0_sqr | apply var_nonneg].
    change (k * k) with (Rsqr k). rewrite sqrt_Rsqr_abs. unfold Rdiv. ring.
  - rewrite (var_map_shift v c Hv). reflexivity.
  - unfold Rdiv. apply Rmult_le_pos; [apply sqrt_pos|].
    apply Rlt_le, Rinv_0_lt_compat, sqrt_lt_R0, INR_length_pos.
    destruct v; [congruence | simpl; lia].
Qed.

Lemma standard_error_units_witness :
  let v := [2; 4; 4; 4; 5; 5; 7; 9] in
  v <> [] /\
  ERP.standard_error (map (Rmult 3) v) = Rabs 3 * ERP.standard_error v.
Proof.
  intros v.
  assert (Hv : v <> []) by (subst v; discriminate).
  split; [exact Hv|].
  apply (standard_error_units v 3 0 Hv).
Defined.

End StandardErrorScaling.

(** ** Epochs laid side by side *)

Section StackingFacts.

Context {T : Type} `{Scalar T}.

Lemma zip_with_app {A B C : Type} (f : A -> B -> C)
      (a1 a2 : list A) (b1 b2 : list B) :
  length a1 = length b1 ->
  zip_with f (a1 ++ a2) (b1 ++ b2) = zip_with f a1 b1 ++ zip_with f a2 b2.
Proof.
  revert b1; induction a1 as [|x a1 IH]; intros [|y b1] Hlen; simpl in *;
    try discriminate; [reflexivity|].
  rewrite IH by lia. reflexivity.
Qed.

Lemma fold_rows_app (m m' : nat) (As Bs : list (list T)) (a0 b0 : list T) :
  length As = length Bs ->
  length a0 = m -> Forall (shape1 m) As ->
  length b0 = m' -> Forall (shape1 m') Bs ->
  fold_left (zip_with f_add) (zip_with (@app T) As Bs) (a0 ++ b0) =
  fold_left (zip_with f_add) As a0 ++ fold_left (zip_with f_add) Bs b0.
Proof.
  revert Bs a0 b0; induction As as [|a As IH]; intros [|b Bs] a0 b0
    Hlen Ha0 HAs Hb0 HBs; simpl in *; try discriminate; [reflexivity|].
  apply Forall_cons_iff in HAs as [Ha HAs].
  apply Forall_cons_iff in HBs as [Hb HBs].
  unfold shape1 in Ha, Hb.
  rewrite zip_with_app by lia.
  apply IH; try assumption; try lia.
  - rewrite zip_with_length. lia.
  - rewrite zip_with_length. lia.
Qed.

Lemma zip_app_shape (n m m' : nat) (A B : list (list T)) :
  shape2 n m A -> shape2 n m' B ->
  shape2 n (m + m') (zip_with (@app T) A B).
Proof.
  intros [HA HAall] [HB HBall]. split.
  - rewrite zip_with_length. lia.
  - clear HA HB. revert B HBall.
    induction HAall as [|a A Ha HAall IH]; intros [|b B] HBall; simpl;
      constructor.
    + apply Forall_cons_iff in HBall as [Hb _]. unfold shape1 in *.
      rewrite length_app. lia.
    + apply Forall_cons_iff in HBall as [_ HBall]. apply IH. exact HBall.
Qed.

Lemma mean_axis0_zip_app (n m m' : nat) (A B : list (list T)) :
  shape2 n m A -> shape2 n m' B -> 0 < n ->
  Numpy.mean_axis0 (zip_with (@app T) A B) =
  Numpy.mean_axis0 A ++ Numpy.mean_axis0 B.
Proof.
  intros [HA HAall] [HB HBall] Hpos.
  unfold Numpy.mean_axis0. simpl.
  rewrite zip_with_length, HA, HB, Nat.min_id, <- map_app. f_equal.
  destruct A as [|a0 As]; [simpl in HA; lia|].
  destruct B as [|b0 Bs]; [simpl in HB; lia|].
  apply Forall_cons_iff in HAall as [Ha0 HAs].
  apply Forall_cons_iff in HBall as [Hb0 HBs].
  simpl. apply (fold_rows_app m m'); try assumption.
  simpl in HA, HB. lia.
Qed.

Lemma hstack_shape (k n m : nat) (e : list (list (list T))) :
  shape3 k n m e -> 0 < k -> shape2 n (k * m) (Stacking.hstack e).
Proof.
  intros [Hk Hall] Hpos. subst k.
  induction Hall as [|ep e Hep Hall IH]; [simpl in Hpos; lia|].
  destruct e as [|ep2 e].
  - simpl. rewrite Nat.add_0_r. exact Hep.
  - change (Stacking.hstack (ep :: ep2 :: e))
      with (zip_with (@app T) ep (Stacking.hstack (ep2 :: e))).
    change (length (ep :: ep2 :: e) * m) with (m + length (ep2 :: e) * m).
    apply zip_app_shape; [exact Hep|]. apply IH. simpl. lia.
Qed.

Lemma mean_axis0_hstack (k n m : nat) (e : list (list (list T))) :
  shape3 k n m e -> 0 < k -> 0 < n ->
  Numpy.mean_axis0 (Stacking.hstack e) = concat (map Numpy.mean_axis0 e).
Proof.
  intros [Hk Hall] Hpos Hn. subst k.
  induction Hall as [|ep e Hep Hall IH]; [simpl in Hpos; lia|].
  destruct e as [|ep2 e].
  - simpl. rewrite app_nil_r. reflexivity.
  - change (Stacking.hstack (ep :: ep2 :: e))
      with (zip_with (@app T) ep (Stacking.hstack (ep2 :: e))).
    rewrite (mean_axis0_zip_app n m (length (ep2 :: e) * m)); try assumption.
    + rewrite IH by (simpl; lia). reflexivity.
    + apply hstack_shape; [split; [reflexivity | exact Hall] | simpl; lia].
Qed.

Lemma squared_ep_shape (k n m : nat) (e : list (list (list T))) :
  shape3 k n m e -> shape3 k n m (ERP.squared_ep e).
Proof.
  intros [Hk Hall]. unfold ERP.squared_ep. split.
  - rewrite length_map. exact Hk.
  - rewrite Forall_map. eapply Forall_impl; [|exact Hall].
    intros ep Hep. apply shape2_map2. exact Hep.
Qed.

(** The stacked global field power is the mean over the rows of
    [squared_raw], which has one row per channel and the epochs side by
    side. *)
Lemma gfp_mean_axis0_squared_raw (k n m : nat) (e : list (list (list T))) :
  shape3 k n m e -> 0 < k -> 0 < n ->
  shape2 n (k * m) (Stacking.squared_raw e) /\
  Stacking.gfp e = Numpy.mean_axis0 (Stacking.squared_raw e) /\
  length (Stacking.gfp e) = k * m.
Proof.
  intros He Hk Hn.
  pose proof (squared_ep_shape k n m e He) as Hsq.
  pose proof (hstack_shape k n m _ Hsq Hk) as Hst.
  assert (Hg : Stacking.gfp e = Numpy.mean_axis0 (Stacking.squared_raw e)).
  { unfold Stacking.gfp, Stacking.squared_raw, ERP.gfp_ep.
    symmetry. apply (mean_axis0_hstack k n m); assumption. }
  split; [exact Hst|]. split; [exact Hg|].
  rewrite Hg. apply (mean_axis0_rows_length n (k * m)); assumption.
Qed.

End StackingFacts.

Section StackingExact.

Local Open Scope R_scope.

(** X13. The target of the regression on the epochs is the channel
    average of its regressors: [squared_raw] has one row per channel and
    the epochs side by side, and entry [j] of the stacked global field
    power [gfp] is the sum of column [j] of [squared_raw] divided by the
    number of channels. *)
Theorem gfp_is_mean_of_squared_raw (k n m : nat)
        (e : list (list (list R))) :
  shape3 k n m e -> (0 < k)%nat -> (0 < n)%nat ->
  shape2 n (k * m) (Stacking.squared_raw e) /\
  length (Stacking.gfp e) = (k * m)%nat /\
  forall j, (j < k * m)%nat ->
    nth j (Stacking.gfp e) 0 =
    sumR (Numpy.column j (Stacking.squared_raw e)) / INR n.
Proof.
  intros He Hk Hn.
  destruct (gfp_mean_axis0_squared_raw k n m e He Hk Hn) as [Hst [Hg Hlen]].
  split; [exact Hst|]. split; [exact Hlen|].
  intros j Hj. rewrite Hg.
  rewrite (mean_axis0_rows_nth_R n (k * m) _ j Hst Hn Hj).
  rewrite mean_R, column_length. destruct Hst as [Hrows _].
  rewrite Hrows. reflexivity.
Qed.

Lemma gfp_is_mean_of_squared_raw_witness :
  let e := [[[1; 2]; [3; 4]]; [[5; 6]; [7; 0]]] in
  (shape3 2 2 2 e /\ (0 < 2)%nat /\ (0 < 2)%nat) /\
  shape2 2 (2 * 2) (Stacking.squared_raw e) /\
  length (Stacking.gfp e) = (2 * 2)%nat /\
  forall j, (j < 2 * 2)%nat ->
    nth j (Stacking.gfp e) 0 =
    sumR (Numpy.column j (Stacking.squared_raw e)) / INR 2.
Proof.
  intros e.
  assert (He : shape3 2 2 2 e) by (subst e; solve_shape).
  split; [split; [exact He | lia] |].
  apply (gfp_is_mean_of_squared_raw 2 2 2 e He); lia.
Defined.

End StackingExact.

Section StackingBinary64.

Import PrimFloat Binary64.
Local Open Scope float_scope.

Example squared_raw_of_two_epochs :
  Stacking.squared_raw [[[1; 2]; [3; 4]]; [[5; 6]; [7; 0]]] =
  [[1; 4; 25; 36]; [9; 16; 49; 0]] /\
  Stacking.gfp [[[1; 2]; [3; 4]]; [[5; 6]; [7; 0]]] = [5; 10; 37; 18].
Proof. split; vm_compute; reflexivity. Qed.

End StackingBinary64.

(** ** The dictionary of event ids *)

Section EventIdsFacts.

Import EventIds.

Lemma dict_get_set_same (k : String.string) (v : Z) (d : dict) :
  dict_get k (dict_set k v d) = Some v.
Proof.
  induction d as [|[k' v'] d IH]; simpl.
  - rewrite String.eqb_refl. reflexivity.
  - destruct (String.eqb k' k) eqn:He; simpl; rewrite He;
      [reflexivity | exact IH].
Qed.

Lemma dict_get_set_other (k k' : String.string) (v : Z) (d : dict) :
  k <> k' -> dict_get k' (dict_set k v d) = dict_get k' d.
Proof.
  intros Hne. induction d as [|[k2 v2] d IH]; simpl.
  - apply String.eqb_neq in Hne. rewrite Hne. reflexivity.
  - destruct (String.eqb k2 k) eqn:He; simpl.
    + apply String.eqb_eq in He. subst k2.
      apply String.eqb_neq in Hne. rewrite Hne. reflexivity.
    + rewrite IH. reflexivity.
Qed.

Lemma dict_set_keys (k x : String.string) (v : Z) (d : dict) :
  In x (map fst (dict_set k v d)) -> x = k \/ In x (map fst d).
Proof.
  induction d as [|[k' v'] d IH]; simpl.
  - intros [Hx|[]]. left. symmetry. exact Hx.
  - destruct (String.eqb k' k) eqn:He; simpl.
    + intros Hx. right. exact Hx.
    + intros [Hx|Hx]; [right; left; exact Hx|].
      destruct (IH Hx) as [Hk|Hin]; [left | right; right]; assumption.
Qed.

Lemma dict_set_nodup (k : String.string) (v : Z) (d : dict) :
  NoDup (map fst d) -> NoDup (map fst (dict_set k v d)).
Proof.
  induction d as [|[k' v'] d IH]; simpl; intros Hnd.
  - repeat constructor. intros [].
  - destruct (String.eqb k' k) eqn:He; simpl; [exact Hnd|].
    apply String.eqb_neq in He.
    apply NoDup_cons_iff in Hnd as [Hout Hnd].
    constructor; [|apply IH; exact Hnd].
    intros Hin. destruct (dict_set_keys k k' v d Hin) as [Hk|Hk];
      [congruence | contradiction].
Qed.

Lemma ev_id_fold_lookup (k : String.string)
      (rows : list (String.string * Q * String.string))
      (d : dict) (acc : option Z) :
  dict_get k d = acc ->
  dict_get k
    (fold_left (fun d row =>
                  dict_set (fst (fst row)) (py_int (snd (fst row))) d)
               rows d) =
  fold_left (fun acc row =>
               if String.eqb (fst (fst row)) k
               then Some (py_int (snd (fst row))) else acc)
            rows acc.
Proof.
  revert d acc. induction rows as [|[[name id] desc] rows IH];
    intros d acc Hd; simpl; [exact Hd|].
  apply IH. destruct (String.eqb name k) eqn:He.
  - apply String.eqb_eq in He. subst name. apply dict_get_set_same.
  - apply String.eqb_neq in He. rewrite dict_get_set_other by exact He.
    exact Hd.
Qed.

Lemma last_id_fold_none (k : String.string)
      (rows : list (String.string * Q * String.string)) (acc : option Z) :
  fold_left (fun acc row =>
               if String.eqb (fst (fst row)) k
               then Some (py_int (snd (fst row))) else acc)
            rows acc = None <->
  acc = None /\ ~ In k (map (fun row => fst (fst row)) rows).
Proof.
  revert acc. induction rows as [|[[name id] desc] rows IH]; intros acc;
    simpl.
  - split; [intros ->; split; [reflexivity | intros []] | intros [-> _];
              reflexivity].
  - rewrite IH. destruct (String.eqb name k) eqn:He.
    + apply String.eqb_eq in He. split; [intros [Hc _]; discriminate|].
      intros [_ Hn]. exfalso. apply Hn. left. exact He.
    + apply String.eqb_neq in He. split.
      * intros [-> Hn]. split; [reflexivity|]. intros [Hc|Hc]; contradiction.
      * intros [-> Hn]. split; [reflexivity|]. intros Hc. apply Hn.
        right. exact Hc.
Qed.

Lemma ev_id_fold_nodup (rows : list (String.string * Q * String.string))
      (d : dict) :
  NoDup (map fst d) ->
  NoDup (map fst
    (fold_left (fun d row =>
                  dict_set (fst (fst row)) (py_int (snd (fst row))) d)
               rows d)).
Proof.
  revert d. induction rows as [|row rows IH]; intros d Hd; simpl;
    [exact Hd|].
  apply IH. apply dict_set_nodup. exact Hd.
Qed.

(** X14. Looking a name up in [ev_id] gives the id, made an integer, of
    the last row of the table that bears the name, a later row overwriting
    an earlier one; a name that no row bears is a missing key; and no name
    is stored twice. *)
Theorem ev_id_lookup (k : String.string)
        (rows : list (String.string * Q * String.string)) :
  dict_get k (ev_id rows) = last_id k rows /\
  (dict_get k (ev_id rows) = None <->
   ~ In k (map (fun row => fst (fst row)) rows)) /\
  NoDup (map fst (ev_id rows)).
Proof.
  assert (Hlook : dict_get k (ev_id rows) = last_id k rows)
    by (apply ev_id_fold_lookup; reflexivity).
  split; [exact Hlook|]. split.
  - rewrite Hlook. unfold last_id. rewrite last_id_fold_none.
    split; [intros [_ Hn]; exact Hn | intros Hn; split; [reflexivity|exact Hn]].
  - unfold ev_id. apply ev_id_fold_nodup. constructor.
Qed.

(** An id that is a whole number is stored as it is. *)
Lemma py_int_whole (z : Z) : py_int (inject_Z z) = z.
Proof. unfold py_int. simpl. apply Z.quot_1_r. Qed.

Example ev_id_of_three_rows :
  ev_id [("button"%string, (32 # 1)%Q, "press"%string);
         ("smiley"%string, (5 # 1)%Q, "face"%string);
         ("button"%string, (7 # 2)%Q, "again"%string)] =
  [("button"%string, 3%Z); ("smiley"%string, 5%Z)].
Proof. vm_compute. reflexivity. Qed.

End EventIdsFacts.

(** ** The nearest test value *)

Section NearestExact.

Local Open Scope R_scope.

Lemma Rltb_lt (x y : R) : Rltb x y = true <-> x < y.
Proof.
  unfold Rltb. destruct (Rlt_dec x y) as [Hlt|Hge]; split; intros Hx;
    try assumption; try reflexivity; try discriminate; contradiction.
Qed.

(** The scan of [np.argmin], started after the prefix [pre] on whose
    entries [best], found at [best_i], is the first smallest. *)
Lemma argmin_from_spec (xs pre : list R) (best_i : nat) (best : R) :
  (best_i < length pre)%nat ->
  nth best_i pre 0 = best ->
  (forall j, (j < length pre)%nat -> best <= nth j pre 0) ->
  (forall j, (j < best_i)%nat -> best < nth j pre 0) ->
  (Simulation.argmin_from best_i best (length pre) xs
   < length (pre ++ xs))%nat /\
  (forall j, (j < length (pre ++ xs))%nat ->
     nth (Simulation.argmin_from best_i best (length pre) xs) (pre ++ xs) 0
     <= nth j (pre ++ xs) 0) /\
  (forall j,
     (j < Simulation.argmin_from best_i best (length pre) xs)%nat ->
     nth (Simulation.argmin_from best_i best (length pre) xs) (pre ++ xs) 0
     < nth j (pre ++ xs) 0).
Proof.
  revert pre best_i best.
  induction xs as [|x xs IH]; intros pre best_i best Hbi Hbest Hmin Hfirst.
  - simpl. rewrite app_nil_r. rewrite Hbest.
    split; [exact Hbi|]. split; assumption.
  - assert (Hnth_old : forall j, (j < length pre)%nat ->
              nth j (pre ++ [x]) 0 = nth j pre 0)
      by (intros j Hj; apply app_nth1; exact Hj).
    assert (Hnth_new : nth (length pre) (pre ++ [x]) 0 = x)
      by (rewrite app_nth2 by lia; rewrite Nat.sub_diag; reflexivity).
    assert (Hlen : length (pre ++ [x]) = S (length pre))
      by (rewrite length_app; simpl; lia).
    replace (pre ++ x :: xs) with ((pre ++ [x]) ++ xs)
      by (rewrite <- app_assoc; reflexivity).
    change (Simulation.argmin_from best_i best (length pre) (x :: xs))
      with (if Rltb x best
            then Simulation.argmin_from (length pre) x (S (length pre)) xs
            else Simulation.argmin_from best_i best (S (length pre)) xs).
    rewrite <- Hlen.
    destruct (Rltb x best) eqn:Hlt.
    + apply Rltb_lt in Hlt.
      apply (IH (pre ++ [x]) (length pre) x).
      * lia.
      * exact Hnth_new.
      * intros j Hj. rewrite Hlen in Hj.
        destruct (Nat.eq_dec j (length pre)) as [->|Hne].
        -- rewrite Hnth_new. lra.
        -- rewrite Hnth_old by lia.
           assert (best <= nth j pre 0) by (apply Hmin; lia). lra.
      * intros j Hj. rewrite Hnth_old by lia.
        assert (best <= nth j pre 0) by (apply Hmin; lia). lra.
    + assert (Hge : best <= x).
      { destruct (Rle_or_lt best x) as [Hle|Hc]; [exact Hle|].
        apply Rltb_lt in Hc. rewrite Hc in Hlt. discriminate. }
      apply (IH (pre ++ [x]) best_i best).
      * lia.
      * rewrite Hnth_old by lia. exact Hbest.
      * intros j Hj. rewrite Hlen in Hj.
        destruct (Nat.eq_dec j (length pre)) as [->|Hne].
        -- rewrite Hnth_new. exact Hge.
        -- rewrite Hnth_old by lia. apply Hmin. lia.
      * intros j Hj. rewrite Hnth_old by lia. apply Hfirst. exact Hj.
Qed.

Lemma argmin_spec (xs : list R) :
  xs <> [] ->
  exists r,
    Simulation.argmin xs = Some r /\
    (r < length xs)%nat /\
    (forall j, (j < length xs)%nat -> nth r xs 0 <= nth j xs 0) /\
    (forall j, (j < r)%nat -> nth r xs 0 < nth j xs 0).
Proof.
  destruct xs as [|x xs]; [congruence|]. intros _.
  exists (Simulation.argmin_from 0 x 1 xs). split; [reflexivity|].
  apply (argmin_from_spec xs [x] 0 x).
  - simpl. lia.
  - reflexivity.
  - intros j Hj. simpl in Hj. destruct j; [simpl; lra | lia].
  - intros j Hj. lia.
Qed.

(** X15. For every data point the error line ends at the prediction for
    the test value nearest to it: the index found is in range, no test
    value is nearer to [a_actual], every earlier one is strictly farther,
    and the value read off [b_preds] is the coefficient times that test
    value. *)
Theorem closest_prediction (coef a_actual : R) (test_vals : list R) :
  test_vals <> [] ->
  exists ix,
    Simulation.ix_a_pred a_actual test_vals = Some ix /\
    (ix < length test_vals)%nat /\
    (forall j, (j < length test_vals)%nat ->
       Rabs (a_actual - nth ix test_vals 0) <=
       Rabs (a_actual - nth j test_vals 0)) /\
    (forall j, (j < ix)%nat ->
       Rabs (a_actual - nth ix test_vals 0) <
       Rabs (a_actual - nth j test_vals 0)) /\
    Simulation.closest_predicted_b a_actual test_vals
      (Simulation.b_preds coef test_vals) =
    Some (coef * nth ix test_vals 0).
Proof.
  intros Hne.
  set (dist := map (fun tv => f_abs (f_sub a_actual tv)) test_vals).
  assert (Hd : dist <> [])
    by (subst dist; destruct test_vals; [congruence | discriminate]).
  destruct (argmin_spec dist Hd) as [ix [Hix [Hlt [Hmin Hfirst]]]].
  assert (Hlen : length dist = length test_vals) by apply length_map.
  assert (Hnth : forall j, (j < length test_vals)%nat ->
            nth j dist 0 = Rabs (a_actual - nth j test_vals 0)).
  { intros j Hj. subst dist.
    rewrite (map_nth_in _ test_vals j 0 0) by exact Hj. reflexivity. }
  rewrite Hlen in Hlt, Hmin.
  exists ix. split; [exact Hix|]. split; [exact Hlt|].
  split; [|split].
  - intros j Hj. rewrite <- !Hnth by assumption. apply Hmin. exact Hj.
  - intros j Hj. rewrite <- !Hnth by lia. apply Hfirst. exact Hj.
  - unfold Simulation.closest_predicted_b. fold dist in Hix.
    unfold Simulation.ix_a_pred. fold dist. rewrite Hix.
    unfold Simulation.b_preds.
    rewrite nth_error_map.
    rewrite (nth_error_nth' test_vals 0 Hlt). reflexivity.
Qed.

Lemma closest_prediction_witness :
  let test_vals := [0; 1; 2] in
  test_vals <> [] /\
  exists ix,
    Simulation.ix_a_pred (13 / 10) test_vals = Some ix /\
    (ix < length test_vals)%nat.
Proof.
  intros test_vals.
  assert (Hne : test_vals <> []) by (subst test_vals; discriminate).
  split; [exact Hne|].
  destruct (closest_prediction 2 (13 / 10) test_vals Hne)
    as [ix [Hix [Hlt _]]].
  exists ix. split; assumption.
Defined.

End NearestExact.

Section NearestBinary64.

Import PrimFloat Binary64 Binary64Order.
Local Open Scope float_scope.

Example closest_of_three_test_values :
  Simulation.closest_predicted_b 1.25 [0; 1; 2]
    (Simulation.b_preds 2 [0; 1; 2]) = Some 2.
Proof. vm_compute. reflexivity. Qed.

End NearestBinary64.

(** ** What an epoch holds *)

Section EpochSamples.

Import Epoching.
Local Open Scope Z_scope.

Context {T : Type}.

(** X16. A kept epoch is the recording around its event: its window
    lies inside the recording, sample [i] of channel [c] is the recorded
    sample [event - first_samp + start + i] of that channel, where
    [start = round(tmin * sfreq)], and when the window starts at or before
    the event, the event's own sample sits at index [- start]. *)
Theorem epoch_is_raw_window (raw : Raw T) (start : Z) (len : nat) (ev : Z)
        (ep : list (list T)) (nch c i : nat) (dflt : T) :
  shape2 nch (n_samples raw) (raw_data raw) ->
  get_epoch raw start len ev = Some ep ->
  (c < nch)%nat -> (i < len)%nat ->
  window_fits raw start len ev /\
  nth i (nth c ep []) dflt =
    nth (Z.to_nat (ev - first_samp raw + start + Z.of_nat i))
        (nth c (raw_data raw) []) dflt /\
  (start <= 0 -> i = Z.to_nat (- start) ->
   nth i (nth c ep []) dflt =
   nth (Z.to_nat (ev - first_samp raw)) (nth c (raw_data raw) []) dflt).
Proof.
  intros [Hn Hall] Hget Hc Hi.
  pose proof (get_epoch_fits raw start len ev ep Hget) as Hfit.
  pose proof Hfit as Heq. apply get_epoch_some in Heq.
  rewrite Heq in Hget. injection Hget as <-.
  destruct Hfit as [Hlo Hhi].
  assert (Hnth : forall k, (k < len)%nat ->
            nth k (nth c (map (fun ch =>
                     firstn len
                       (skipn (Z.to_nat (ev - first_samp raw + start)) ch))
                     (raw_data raw)) []) dflt =
            nth (Z.to_nat (ev - first_samp raw + start + Z.of_nat k))
                (nth c (raw_data raw) []) dflt).
  { intros k Hk.
    rewrite (map_nth_in _ (raw_data raw) c [] []) by lia.
    rewrite nth_firstn.
    assert (Hlt : (k <? len)%nat = true) by (apply Nat.ltb_lt; exact Hk).
    rewrite Hlt, nth_skipn. f_equal. lia. }
  split; [split; assumption|]. split; [apply Hnth; exact Hi|].
  intros Hstart Hi0. rewrite (Hnth i Hi). f_equal. lia.
Qed.

(** X17. No epoch is invented and none is cut short: when [Epochs]
    returns, there are at most as many epochs as events, every epoch is
    the window of an event whose window fits into the recording, and when
    every window fits there is one epoch per event.  It returns nothing
    (MNE raises) when two events fall on one sample. *)
Theorem epochs_come_from_events (raw : Raw T) (events : list Z)
        (tmin tmax : PrimFloat.float) (E : list (list (list T))) :
  Epochs raw events tmin tmax = Some E ->
  NoDup events /\
  exists (start : Z) (len : nat),
    start_idx tmin (sfreq raw) = Some start /\
    n_times tmin tmax (sfreq raw) = Some len /\
    (length E <= length events)%nat /\
    (forall ep, In ep E ->
       exists ev, In ev events /\ window_fits raw start len ev /\
                  get_epoch raw start len ev = Some ep) /\
    (Forall (window_fits raw start len) events ->
     length E = length events).
Proof.
  unfold Epochs. intros HE.
  destruct (n_times tmin tmax (sfreq raw)) as [len|]; [|discriminate].
  destruct (start_idx tmin (sfreq raw)) as [start|]; [|discriminate].
  destruct events as [|ev rest]; [discriminate|].
  destruct (has_repeat (ev :: rest)) eqn:Hrep; [discriminate|].
  injection HE as <-.
  split; [apply has_repeat_false; exact Hrep|].
  exists start, len. split; [reflexivity|]. split; [reflexivity|].
  exact (windows_come_from_events raw start len (ev :: rest)).
Qed.

End EpochSamples.

Section EpochSamplesWitness.

Import PrimFloat Epoching.
Local Open Scope Z_scope.

Lemma epoch_is_raw_window_witness :
  exists ep,
    (shape2 1 (n_samples Samples.three_seconds)
            (raw_data Samples.three_seconds) /\
     get_epoch Samples.three_seconds (-50) 101 150 = Some ep /\
     (0 < 1)%nat /\ (50 < 101)%nat) /\
    window_fits Samples.three_seconds (-50) 101 150.
Proof.
  assert (Hraw : shape2 1 (n_samples Samples.three_seconds)
                        (raw_data Samples.three_seconds))
    by (split; [reflexivity | repeat constructor]).
  destruct (get_epoch Samples.three_seconds (-50) 101 150)
    as [ep|] eqn:Hget; [|vm_compute in Hget; discriminate Hget].
  exists ep. split; [split; [exact Hraw | split; [reflexivity | split;
                      lia]] |].
  apply (epoch_is_raw_window Samples.three_seconds (-50) 101 150 ep
           1 0 50 PrimFloat.zero Hraw Hget); lia.
Defined.

Lemma epochs_come_from_events_witness :
  exists E,
    Epochs Samples.three_seconds [150; 20; 200] (-0.5)%float 0.5%float
    = Some E /\
    NoDup [150; 20; 200].
Proof.
  destruct (Epochs Samples.three_seconds [150; 20; 200] (-0.5)%float
                   0.5%float) as [E|] eqn:HE;
    [|vm_compute in HE; discriminate HE].
  exists E. split; [reflexivity|].
  apply (epochs_come_from_events Samples.three_seconds [150; 20; 200]
           (-0.5)%float 0.5%float E HE).
Defined.

(** Two events on one sample: MNE raises, no epochs are built. *)
Example epochs_of_repeated_events :
  Epochs Samples.three_seconds [150; 150] (-0.5)%float 0.5%float = None.
Proof. vm_compute. reflexivity. Qed.

End EpochSamplesWitness.

(** ** Correlation of a signal with a multiple of itself *)

Section CorrelationOfMultiples.

Local Open Scope R_scope.

Lemma b_preds_R (w : R) (a : list R) :
  Simulation.b_preds w a = map (Rmult w) a.
Proof. reflexivity. Qed.

Lemma center_map_mult (w : R) (a : list R) :
  Numpy.center (map (Rmult w) a) = map (Rmult w) (Numpy.center a).
Proof.
  unfold Numpy.center. rewrite mean_map_mult, !map_map.
  apply map_ext. intros x. simpl. ring.
Qed.

Lemma dot_map_mult_l (k : R) (u v : list R) :
  Numpy.dot (map (Rmult k) u) v = k * Numpy.dot u v.
Proof.
  rewrite !dot_R. revert v; induction u as [|x u IH]; intros [|y v]; simpl;
    try lra.
  rewrite IH. lra.
Qed.

Lemma dot_map_mult_both (k : R) (u : list R) :
  Numpy.dot (map (Rmult k) u) (map (Rmult k) u) = k * k * Numpy.dot u u.
Proof.
  rewrite dot_map_mult_l, (dot_R_comm u), dot_map_mult_l. ring.
Qed.

(** X19. A signal and a nonzero multiple of it are perfectly correlated:
    [np.corrcoef(a, w * a)[1, 0]] is 1 for a positive weight and -1 for a
    negative one, whatever the size of the weight. *)
Theorem corr_of_multiple (w : R) (a : list R) :
  Numpy.std a <> 0 ->
  (0 < w ->
   Numpy.item (Modeling.corr a (Simulation.b_preds w a)) 1 0 = Some 1) /\
  (w < 0 ->
   Numpy.item (Modeling.corr a (Simulation.b_preds w a)) 1 0 = Some (-1)).
Proof.
  intros Hs.
  destruct (std_nonzero a Hs) as [Hd [Hn _]].
  assert (Hva : Numpy.var a <> 0).
  { intros Hz. apply Hs. unfold Numpy.std. simpl. rewrite Hz. apply sqrt_0. }
  set (D := Numpy.dot (Numpy.center a) (Numpy.center a)) in *.
  pose proof (sqrt_lt_R0 D Hd) as HsD.
  assert (Hentry : w <> 0 ->
            Numpy.item (Modeling.corr a (Simulation.b_preds w a)) 1 0 =
            Some (w * D / (sqrt (w * w * D) * sqrt D))).
  { intros Hw. rewrite b_preds_R. unfold Modeling.corr.
    rewrite corrcoef_two_rows by (simpl; lia).
    simpl Numpy.item. f_equal.
    rewrite (normalised_entry_R 2 (length a) [a; map (Rmult w) a] 1 0).
    - simpl nth. rewrite center_map_mult, dot_map_mult_both, dot_map_mult_l.
      fold D. reflexivity.
    - split; [reflexivity|]. repeat constructor.
      unfold shape1. rewrite length_map. reflexivity.
    - repeat constructor; [exact Hva|].
      rewrite var_map_mult. intros Hz.
      apply Rmult_integral in Hz as [Hz|Hz]; [|contradiction].
      apply Rmult_integral in Hz as [Hz|Hz]; contradiction.
    - lia.
    - lia. }
  assert (Hsq : sqrt (w * w * D) = Rabs w * sqrt D).
  { rewrite sqrt_mult; [|apply Rle_0_sqr | lra].
    change (w * w) with (Rsqr w). rewrite sqrt_Rsqr_abs. reflexivity. }
  split; intros Hw; rewrite Hentry by lra; f_equal; rewrite Hsq.
  - rewrite Rabs_right by lra.
    rewrite <- (sqrt_sqrt D) at 1 by lra. field. split; lra.
  - rewrite Rabs_left by lra.
    rewrite <- (sqrt_sqrt D) at 1 by lra. field. split; lra.
Qed.

Lemma corr_of_multiple_witness :
  let a := [0; 2] in
  Numpy.std a <> 0 /\
  Numpy.item (Modeling.corr a (Simulation.b_preds 2 a)) 1 0 = Some 1.
Proof.
  intros a.
  assert (Hs : Numpy.std a <> 0).
  { subst a. unfold Numpy.std; simpl f_sqrt;
      rewrite var_R, dot_R; unfold Numpy.center; rewrite mean_R; simpl;
      match goal with
      | |- sqrt ?e <> 0 => replace e with 1 by field
      end; rewrite sqrt_1; lra. }
  split; [exact Hs|].
  apply (corr_of_multiple 2 a Hs). lra.
Defined.

End CorrelationOfMultiples.
